(** * Upper buttons of the modal gallery: a shallow embedding

    Source: [src/components/upper-buttons/upper-buttons.component.ts].

    The component resolves a list of button descriptors from a strategy
    ([ngOnInit]), stamps every descriptor of the list with its position
    ([addButtonIds]) and routes an input event on a button to one of six
    output emitters ([onEvent], [triggerOnMouseAndKeyboard]).

    JavaScript objects are kept in a store, so that the sharing the source
    creates (one [defaultSize] object, button objects spread into several
    arrays, [Object.assign] copying references) is visible in the model. *)

From Stdlib Require Import ZArith Lia.
From stdpp Require Import base option list strings gmap functions.

Local Open Scope Z_scope.

(** ** Values and the object store *)

(** Addresses of the store; an object allocated later has a larger one. *)
Abbreviation loc := nat (only parsing).

(** The JavaScript values the component handles.  [null] and [undefined]
    are not told apart (the source only tests them with [!]). *)
Inductive Value :=
| VUndef
| VBool (b : bool)
| VNum (n : Z)
| VStr (s : string)
| VObj (l : loc)
| VArr (l : loc).

#[global] Instance Value_eq_dec : EqDecision Value.
Proof. solve_decision. Defined.

(** [!!v] of JavaScript. *)
Definition truthy (v : Value) : bool :=
  match v with
  | VUndef => false
  | VBool b => b
  | VNum n => negb (n =? 0)
  | VStr s => negb (String.eqb s "")
  | VObj _ | VArr _ => true
  end.

(** [v === w]: primitives by value, objects and arrays by address. *)
Definition strict_eq (v w : Value) : bool := bool_decide (v = w).

(** Plain objects are finite maps from property names to values; arrays of
    [ButtonConfig] are lists of object addresses. *)
Record Heap := mkHeap {
  objs : list (gmap string Value);
  arrs : list (list loc)
}.

Definition read_object (h : Heap) (l : loc) : gmap string Value :=
  default ∅ (objs h !! l).

(** [o.k]; a property that is not there reads [undefined]. *)
Definition read_prop (h : Heap) (l : loc) (k : string) : Value :=
  default VUndef (read_object h l !! k).

Definition read_array (h : Heap) (a : loc) : list loc :=
  default [] (arrs h !! a).

(** ** Enumerations declared outside this file

    [ButtonType], [ButtonsStrategy], [NEXT] and [handleImageEvent] are
    imported by the source; their declarations are parameters here.  A
    TypeScript numeric enum member is a number at run time. *)

Module ButtonType.
Record t := Build {
  REFRESH : Z;
  DELETE : Z;
  EXTURL : Z;
  DOWNLOAD : Z;
  CLOSE : Z;
  CUSTOM : Z
}.
Definition members (e : t) : list Z :=
  [REFRESH e; DELETE e; EXTURL e; DOWNLOAD e; CLOSE e; CUSTOM e].
End ButtonType.

Module ButtonsStrategy.
Record t := Build {
  DEFAULT : Z;
  SIMPLE : Z;
  ADVANCED : Z;
  FULL : Z;
  CUSTOM : Z
}.
Definition members (e : t) : list Z :=
  [DEFAULT e; SIMPLE e; ADVANCED e; FULL e; CUSTOM e].
End ButtonsStrategy.

(** [KeyboardEvent | MouseEvent], with the key code or the mouse button. *)
Inductive DomEvent :=
| KeyboardEvent (keyCode : Z)
| MouseEvent (btn : Z).

(** ** The component *)

(** The only field of [Image] the component reads. *)
Record Image := mkImage { extUrl : option string }.

Record ButtonEvent := mkButtonEvent {
  index : Z;
  button : loc;
  payload : Value
}.

(** An emitter is represented by the events it has emitted, oldest first. *)
Abbreviation EventEmitter := (list ButtonEvent) (only parsing).

(** The six [@Output] fields. *)
Module Channel.
Inductive t := refresh | delete | navigate | download | close | customEmit.
#[global] Instance eq_dec : EqDecision t.
Proof. solve_decision. Defined.
End Channel.

Record UpperButtonsComponent := mkComponent {
  image : option Image;
  buttonsConfig : option loc;
  emitters : Channel.t -> option EventEmitter;
  buttons : option loc;
  defaultSize : loc;
  defaultButtonsDefault : loc;
  simpleButtonsDefault : loc;
  advancedButtonsDefault : loc;
  fullButtonsDefault : loc
}.

(** [this.refresh], [this.delete], ... as a value handed to a callee: the
    emitter of that channel, or nothing when the field holds no emitter. *)
Definition output (c : UpperButtonsComponent) (ch : Channel.t) : option Channel.t :=
  match emitters c ch with
  | Some _ => Some ch
  | None => None
  end.

(** ** Exceptions and the state monad *)

Inductive Exn :=
| Error (msg : string)
| TypeError (msg : string).

Inductive Outcome (A : Type) :=
| Returned (a : A)
| Thrown (e : Exn).
Arguments Returned {A} a.
Arguments Thrown {A} e.

(** What a method can read and change: the store, the component itself, the
    lines written with [console.error] and the events handed to
    [handleImageEvent] so far. *)
Record State := mkState {
  heap : Heap;
  this : UpperButtonsComponent;
  console : list string;
  classified : list DomEvent
}.

Definition M (A : Type) : Type := State -> State * Outcome A.

Definition ret {A} (a : A) : M A := fun s => (s, Returned a).

Definition throw {A} (e : Exn) : M A := fun s => (s, Thrown e).

Definition bind {A B} (m : M A) (k : A -> M B) : M B :=
  fun s =>
    match m s with
    | (s', Returned a) => k a s'
    | (s', Thrown e) => (s', Thrown e)
    end.

Notation "'let!' x ':=' m 'in' k" := (bind m (fun x => k))
  (at level 10, x name, m at level 100, k at level 200).

Definition gets {A} (f : State -> A) : M A := fun s => (s, Returned (f s)).

Definition set_this (c : UpperButtonsComponent) : M unit :=
  fun s => (mkState (heap s) c (console s) (classified s), Returned tt).

(** [console.error(msg)] *)
Definition console_error (msg : string) : M unit :=
  fun s => (mkState (heap s) (this s) (console s ++ [msg]) (classified s), Returned tt).

(** [{...}]: a new object with the given properties. *)
Definition new_object (o : gmap string Value) : M loc :=
  fun s =>
    let h := heap s in
    (mkState (mkHeap (objs h ++ [o]) (arrs h)) (this s) (console s) (classified s),
     Returned (length (objs h))).

(** [[...]]: a new array with the given elements. *)
Definition new_array (a : list loc) : M loc :=
  fun s =>
    let h := heap s in
    (mkState (mkHeap (objs h) (arrs h ++ [a])) (this s) (console s) (classified s),
     Returned (length (arrs h))).

(** The store after [o.k = v] for the object [o] at [l]. *)
Definition heap_write (h : Heap) (l : loc) (k : string) (v : Value) : Heap :=
  mkHeap (alter (insert k v) l (objs h)) (arrs h).

(** [o.k = v] *)
Definition write_prop (l : loc) (k : string) (v : Value) : M unit :=
  fun s =>
    (mkState (heap_write (heap s) l k v) (this s) (console s) (classified s),
     Returned tt).

(** [Object.assign({}, src)]: a new object with the own properties of
    [src]; an [undefined] source contributes nothing. *)
Definition Object_assign_empty (src : option loc) : M loc :=
  let! h := gets heap in
  new_object (match src with Some l => read_object h l | None => ∅ end).

(** [a.map((val, i) => f(val, i))], from index [i] on. *)
Fixpoint Array_map_from {A} (f : loc -> nat -> M A) (i : nat) (l : list loc) : M (list A) :=
  match l with
  | [] => ret []
  | val :: rest =>
      let! b := f val i in
      let! bs := Array_map_from f (S i) rest in
      ret (b :: bs)
  end.

(** [a.forEach(val => f(val))] *)
Fixpoint Array_forEach (f : loc -> M unit) (l : list loc) : M unit :=
  match l with
  | [] => ret tt
  | val :: rest => let! _ := f val in Array_forEach f rest
  end.

(** [a.find(p)], the first element that satisfies [p]. *)
Fixpoint Array_find {A} (p : A -> bool) (l : list A) : option A :=
  match l with
  | [] => None
  | x :: rest => if p x then Some x else Array_find p rest
  end.

Definition set_buttons (b : loc) : M unit :=
  let! c := gets this in
  set_this (mkComponent (image c) (buttonsConfig c) (emitters c) (Some b)
              (defaultSize c) (defaultButtonsDefault c) (simpleButtonsDefault c)
              (advancedButtonsDefault c) (fullButtonsDefault c)).

(** [emitter.emit(e)] on the emitter of channel [ch]. *)
Definition emit (ch : Channel.t) (e : ButtonEvent) : M unit :=
  let! c := gets this in
  set_this (mkComponent (image c) (buttonsConfig c)
              (<[ch := (.++ [e]) <$> emitters c ch]> (emitters c)) (buttons c)
              (defaultSize c) (defaultButtonsDefault c) (simpleButtonsDefault c)
              (advancedButtonsDefault c) (fullButtonsDefault c)).

(** A [ButtonSize] literal of the source. *)
Definition size_literal (height width : Z) (unit : string) : gmap string Value :=
  <["height" := VNum height]>
  (<["width" := VNum width]>
  (<["unit" := VStr unit]> ∅)).

(** A button literal of the source. *)
Definition button_literal (className : string) (size : loc) (type : Z)
    (title ariaLabel : string) : gmap string Value :=
  <["className" := VStr className]>
  (<["size" := VObj size]>
  (<["type" := VNum type]>
  (<["title" := VStr title]>
  (<["ariaLabel" := VStr ariaLabel]> ∅)))).

(** [out.k1.k2 = v] and [inp.k1.k2], used to observe sharing. *)
Definition write_nested (l : loc) (k1 k2 : string) (v : Value) : M unit :=
  let! h := gets heap in
  match read_prop h l k1 with
  | VObj l' => write_prop l' k2 v
  | _ => throw (TypeError "Cannot set property of undefined")
  end.

Definition read_nested (h : Heap) (l : loc) (k1 k2 : string) : Value :=
  match read_prop h l k1 with
  | VObj l' => read_prop h l' k2
  | _ => VUndef
  end.

(** ** Vocabulary of the statements *)

(** The address holds an object of the store. *)
Definition allocated (h : Heap) (l : loc) : Prop := (l < length (objs h))%nat.

(** Every element of the array at [a] is an object of the store. *)
Definition elements_allocated (h : Heap) (a : loc) : Prop :=
  Forall (allocated h) (read_array h a).

(** The [type] properties of the buttons of the array at [a], in order. *)
Definition button_types (h : Heap) (a : loc) : list Value :=
  (fun l => read_prop h l "type") <$> read_array h a.

(** The objects [addButtonIds] creates for the elements [vals], the first
    of which has position [i]. *)
Fixpoint stamped (h : Heap) (i : nat) (vals : list loc) : list (gmap string Value) :=
  match vals with
  | [] => []
  | val :: rest =>
      <["id" := VNum (Z.of_nat i)]> (read_object h val) :: stamped h (S i) rest
  end.

(** What the constructor guarantees about the component [this s] and its
    default arrays. *)
Record constructed (BT : ButtonType.t) (s : State) : Prop := {
  constructed_emitters : ∀ ch, emitters (this s) ch = Some [];
  constructed_buttons : buttons (this s) = None;
  constructed_size : allocated (heap s) (defaultSize (this s));
  constructed_default :
    ∃ cl, read_array (heap s) (defaultButtonsDefault (this s)) = [cl];
  constructed_simple :
    ∃ dl, read_array (heap s) (simpleButtonsDefault (this s)) =
          dl :: read_array (heap s) (defaultButtonsDefault (this s));
  constructed_advanced :
    ∃ ex, read_array (heap s) (advancedButtonsDefault (this s)) =
          ex :: read_array (heap s) (simpleButtonsDefault (this s));
  constructed_full :
    ∃ rf de, read_array (heap s) (fullButtonsDefault (this s)) =
             rf :: de :: read_array (heap s) (advancedButtonsDefault (this s));
  constructed_types :
    button_types (heap s) (fullButtonsDefault (this s)) =
      VNum <$> [ButtonType.REFRESH BT; ButtonType.DELETE BT; ButtonType.EXTURL BT;
                ButtonType.DOWNLOAD BT; ButtonType.CLOSE BT];
  constructed_allocated : elements_allocated (heap s) (fullButtonsDefault (this s));
  constructed_sizes :
    ∀ l, l ∈ read_array (heap s) (fullButtonsDefault (this s)) →
         read_prop (heap s) l "size" = VObj (defaultSize (this s))
}.

(** [ngOnInit], run in [s], returns and leaves in [this.buttons] an array
    whose buttons have the given types, in that order. *)
Definition resolves_to (ngOnInit : M unit) (s : State) (types : list Z) : Prop :=
  ∃ s' b,
    ngOnInit s = (s', Returned tt) ∧
    buttons (this s') = Some b ∧
    button_types (heap s') b = VNum <$> types.

(** Between [s] and [s'] the emitter of [ch] has emitted [e], once, and no
    other emitter has emitted anything. *)
Definition emitted_once (s s' : State) (ch : Channel.t) (e : ButtonEvent) : Prop :=
  (∃ log, emitters (this s) ch = Some log ∧
          emitters (this s') ch = Some (log ++ [e])) ∧
  ∀ ch', ch' ≠ ch → emitters (this s') ch' = emitters (this s) ch'.

(** Between [s] and [s'] no emitter has emitted anything. *)
Definition no_emission (s s' : State) : Prop :=
  ∀ ch, emitters (this s') ch = emitters (this s) ch.

(** The URL [onEvent] hands to [navigate], when the component has one:
    [this.image] is there and its [extUrl] is a non-empty string. *)
Definition usable_url (c : UpperButtonsComponent) : option string :=
  match image c with
  | Some img =>
      match extUrl img with
      | Some url => if truthy (VStr url) then Some url else None
      | None => None
      end
  | None => None
  end.

(** The component [c'] is [c] but for its emitters. *)
Definition same_but_emitters (c c' : UpperButtonsComponent) : Prop :=
  image c' = image c ∧ buttonsConfig c' = buttonsConfig c ∧
  buttons c' = buttons c ∧ defaultSize c' = defaultSize c ∧
  defaultButtonsDefault c' = defaultButtonsDefault c ∧
  simpleButtonsDefault c' = simpleButtonsDefault c ∧
  advancedButtonsDefault c' = advancedButtonsDefault c ∧
  fullButtonsDefault c' = fullButtonsDefault c.

(** The component [c'] is [c] but for [this.buttons]. *)
Definition same_but_buttons (c c' : UpperButtonsComponent) : Prop :=
  image c' = image c ∧ buttonsConfig c' = buttonsConfig c ∧
  emitters c' = emitters c ∧ defaultSize c' = defaultSize c ∧
  defaultButtonsDefault c' = defaultButtonsDefault c ∧
  simpleButtonsDefault c' = simpleButtonsDefault c ∧
  advancedButtonsDefault c' = advancedButtonsDefault c ∧
  fullButtonsDefault c' = fullButtonsDefault c.

(** Every button of the array at [b] carries its position as [id]. *)
Definition positional_ids (h : Heap) (b : loc) : Prop :=
  ∀ i o, read_array h b !! i = Some o → read_prop h o "id" = VNum (Z.of_nat i).

(** Nothing that was in the store has changed: [h'] only has more objects
    and arrays than [h]. *)
Definition preserved (h h' : Heap) : Prop :=
  objs h `prefix_of` objs h' ∧ arrs h `prefix_of` arrs h'.

Arguments size_literal : simpl never.
Arguments button_literal : simpl never.

(** ** An instance of the external declarations

    Numbers for the two enumerations, a value for [NEXT] and a classifier,
    to run the component on examples: members numbered from 1 in the order
    of their declaration, a left click and the Enter and Space keys
    classified as [NEXT]. *)
Module Sample.
Definition BT : ButtonType.t := ButtonType.Build 1 2 3 4 5 6.
Definition BS : ButtonsStrategy.t := ButtonsStrategy.Build 1 2 3 4 5.
Definition NEXT : Z := 1.
Definition handleImageEvent (ev : DomEvent) : Z :=
  match ev with
  | KeyboardEvent keyCode => if (keyCode =? 13) || (keyCode =? 32) then 1 else 0
  | MouseEvent btn => if btn =? 0 then 1 else 0
  end.

(** The component before its field initialisers have run. *)
Definition blank : UpperButtonsComponent :=
  mkComponent None None (fun _ => None) None 0%nat 0%nat 0%nat 0%nat 0%nat.

(** A store whose only object is a [ButtonsConfig] at address 0. *)
Definition config_only (cfg : gmap string Value) : State :=
  mkState (mkHeap [cfg] []) blank [] [].

(** [{strategy: CUSTOM, buttons: [{type: CLOSE}, {type: CUSTOM}]}] at
    address 0, for a component whose [buttonsConfig] is that object. *)
Definition custom_state (t1 t2 : Value) : State :=
  mkState
    (mkHeap [ <["strategy" := VNum 5]> {["buttons" := VArr 0%nat]};
              {["type" := t1]}; {["type" := t2]} ]
            [[1; 2]%nat])
    (mkComponent None (Some 0%nat) (fun _ => Some []) None 0%nat 0%nat 0%nat 0%nat 0%nat)
    [] [].

(** The numbering TypeScript gives when no member has an initialiser:
    the first member is 0. *)
Definition BT0 : ButtonType.t := ButtonType.Build 0 1 2 3 4 5.

(** A size object at address 0, a button with that size at address 1 and
    an array holding the button. *)
Definition sized_button : State :=
  mkState
    (mkHeap [ size_literal 30 30 "px";
              button_literal "close-image" 0%nat 5 "Close" "Close" ]
            [[1%nat]])
    blank [] [].

(** A component with the emitters [emitters] and the image [img], and a
    store whose only object is a button of type [type], at address 0. *)
Definition one_button (type : Value) (img : option Image)
    (emitters : Channel.t -> option (list ButtonEvent)) : State :=
  mkState (mkHeap [ {["type" := type]} ] [])
    (mkComponent img None emitters None 0%nat 0%nat 0%nat 0%nat 0%nat)
    [] [].
End Sample.

Section UpperButtons.

Variable BT : ButtonType.t.
Variable BS : ButtonsStrategy.t.
Variable NEXT : Z.
Variable handleImageEvent : DomEvent -> Z.

(** Modelled from the spec: [WHITELIST_BUTTON_TYPES] is imported from the
    buttons-config interface, which is not part of the sources at hand; the
    specification describes it as the list of the declared button types,
    [CUSTOM] included. *)
Definition WHITELIST_BUTTON_TYPES : list Z :=
  [ButtonType.CLOSE BT; ButtonType.DOWNLOAD BT; ButtonType.DELETE BT;
   ButtonType.REFRESH BT; ButtonType.EXTURL BT; ButtonType.CUSTOM BT].

(** [super.handleImageEvent(event)]; the call is recorded. *)
Definition super_handleImageEvent (ev : DomEvent) : M Z :=
  fun s =>
    (mkState (heap s) (this s) (console s) (classified s ++ [ev]),
     Returned (handleImageEvent ev)).

(** The field initialisers of the class, in source order, for a component
    receiving the inputs [img] and [cfg]. *)
Definition constructor (img : option Image) (cfg : option loc) : M unit :=
  let! defaultSize := new_object (size_literal 30 30 "px") in
  let! closeBtn := new_object
    (button_literal "close-image" defaultSize (ButtonType.CLOSE BT)
       "Close this modal image gallery" "Close this modal image gallery") in
  let! defaultButtonsDefault := new_array [closeBtn] in
  let! downloadBtn := new_object
    (button_literal "download-image" defaultSize (ButtonType.DOWNLOAD BT)
       "Download the current image" "Download the current image") in
  let! h1 := gets heap in
  let! simpleButtonsDefault := new_array (downloadBtn :: read_array h1 defaultButtonsDefault) in
  let! extUrlBtn := new_object
    (button_literal "ext-url-image" defaultSize (ButtonType.EXTURL BT)
       "Navigate the current image" "Navigate the current image") in
  let! h2 := gets heap in
  let! advancedButtonsDefault := new_array (extUrlBtn :: read_array h2 simpleButtonsDefault) in
  let! refreshBtn := new_object
    (button_literal "refresh-image" defaultSize (ButtonType.REFRESH BT)
       "Refresh all images" "Refresh all images") in
  let! deleteBtn := new_object
    (button_literal "delete-image" defaultSize (ButtonType.DELETE BT)
       "Delete the current image" "Delete the current image") in
  let! h3 := gets heap in
  let! fullButtonsDefault := new_array
    (refreshBtn :: deleteBtn :: read_array h3 advancedButtonsDefault) in
  set_this (mkComponent img cfg (fun _ => Some []) None
              defaultSize defaultButtonsDefault simpleButtonsDefault
              advancedButtonsDefault fullButtonsDefault).

(** The arrow function handed to [map] in [addButtonIds]. *)
Definition addButtonIds_callback (val : loc) (i : nat) : M loc :=
  let! btn := Object_assign_empty (Some val) in
  let! _ := write_prop btn "id" (VNum (Z.of_nat i)) in
  ret btn.

Definition addButtonIds (buttons : loc) : M loc :=
  let! h := gets heap in
  let! out := Array_map_from addButtonIds_callback 0 (read_array h buttons) in
  new_array out.

(** The arrow function handed to [forEach] in [initCustomButtons]. *)
Definition initCustomButtons_callback (val : loc) : M unit :=
  let! h := gets heap in
  let isValidBtnType : Value :=
    from_option VNum VUndef
      (Array_find (fun btnType => strict_eq (VNum btnType) (read_prop h val "type"))
                  WHITELIST_BUTTON_TYPES) in
  if negb (truthy isValidBtnType)
  then throw (Error "Unknown ButtonType. For custom types use ButtonType.CUSTOM")
  else ret tt.

(** The test [initCustomButtons_callback] makes, as a function of the
    [type] it reads. *)
Definition whitelisted (type : Value) : bool :=
  truthy (from_option VNum VUndef
            (Array_find (fun btnType => strict_eq (VNum btnType) type)
                        WHITELIST_BUTTON_TYPES)).

Definition initCustomButtons : M loc :=
  let! c := gets this in
  let! buttonsConfig := Object_assign_empty (buttonsConfig c) in
  let! h := gets heap in
  let given := read_prop h buttonsConfig "buttons" in
  let! bs := (if truthy given then ret given
              else let! a := new_array [] in ret (VArr a)) in
  let! _ := write_prop buttonsConfig "buttons" bs in
  match bs with
  | VArr a =>
      let! h' := gets heap in
      let! _ := Array_forEach initCustomButtons_callback (read_array h' a) in
      ret a
  | _ => throw (TypeError "buttonsConfig.buttons.forEach is not a function")
  end.

Definition ngOnInit : M unit :=
  let! c := gets this in
  let! h := gets heap in
  match buttonsConfig c with
  | None => throw (Error "ButtonsConfig's strategy is a mandatory field")
  | Some cfg =>
      let strategy := read_prop h cfg "strategy" in
      if negb (truthy strategy)
      then throw (Error "ButtonsConfig's strategy is a mandatory field")
      else if strict_eq strategy (VNum (ButtonsStrategy.SIMPLE BS)) then
        let! b := addButtonIds (simpleButtonsDefault c) in set_buttons b
      else if strict_eq strategy (VNum (ButtonsStrategy.ADVANCED BS)) then
        let! b := addButtonIds (advancedButtonsDefault c) in set_buttons b
      else if strict_eq strategy (VNum (ButtonsStrategy.FULL BS)) then
        let! b := addButtonIds (fullButtonsDefault c) in set_buttons b
      else if strict_eq strategy (VNum (ButtonsStrategy.CUSTOM BS)) then
        let! a := initCustomButtons in
        let! b := addButtonIds a in set_buttons b
      else
        let! b := addButtonIds (defaultButtonsDefault c) in set_buttons b
  end.

Definition triggerOnMouseAndKeyboard (emitter : option Channel.t) (event : DomEvent)
    (btnSource : loc) (btnIndex : Z) (data : Value) : M unit :=
  let! _ := match emitter with
            | None => console_error
                "UpperButtonsComponent unknown emitter in triggerOnMouseAndKeyboard"
            | Some _ => ret tt
            end in
  let dataToEmit := mkButtonEvent btnIndex btnSource data in
  let! result := super_handleImageEvent event in
  if result =? NEXT then
    match emitter with
    | Some ch => emit ch dataToEmit
    | None => throw (TypeError "Cannot read property 'emit' of undefined")
    end
  else ret tt.

Definition onEvent (button : loc) (index : Z) (event : option DomEvent) : M unit :=
  match event with
  | None => ret tt
  | Some event =>
      let! c := gets this in
      let! h := gets heap in
      let type := read_prop h button "type" in
      if strict_eq type (VNum (ButtonType.REFRESH BT)) then
        triggerOnMouseAndKeyboard (output c Channel.refresh) event button index (VBool true)
      else if strict_eq type (VNum (ButtonType.DELETE BT)) then
        triggerOnMouseAndKeyboard (output c Channel.delete) event button index (VBool true)
      else if strict_eq type (VNum (ButtonType.EXTURL BT)) then
        match image c with
        | None => ret tt
        | Some img =>
            match extUrl img with
            | None => ret tt
            | Some url =>
                if negb (truthy (VStr url)) then ret tt
                else triggerOnMouseAndKeyboard (output c Channel.navigate)
                       event button index (VStr url)
            end
        end
      else if strict_eq type (VNum (ButtonType.DOWNLOAD BT)) then
        triggerOnMouseAndKeyboard (output c Channel.download) event button index (VBool true)
      else if strict_eq type (VNum (ButtonType.CLOSE BT)) then
        triggerOnMouseAndKeyboard (output c Channel.close) event button index (VBool true)
      else if strict_eq type (VNum (ButtonType.CUSTOM BT)) then
        triggerOnMouseAndKeyboard (output c Channel.customEmit) event button index (VBool true)
      else throw (Error "Unknown button's type into ButtonConfig")
  end.

Definition trackById (index : Z) (item : loc) : M Value :=
  let! h := gets heap in
  ret (read_prop h item "id").

(** * Properties *)

(** ** The store *)

Lemma read_object_preserved h h' l :
  objs h `prefix_of` objs h' → allocated h l → read_object h' l = read_object h l.
Proof.
  intros Hp Hl. unfold read_object. by rewrite <- (prefix_lookup_lt _ _ _ Hl Hp).
Qed.

Lemma read_prop_preserved h h' l k :
  objs h `prefix_of` objs h' → allocated h l → read_prop h' l k = read_prop h l k.
Proof. intros Hp Hl. unfold read_prop. by rewrite (read_object_preserved h h'). Qed.

Lemma read_array_preserved h h' a :
  arrs h `prefix_of` arrs h' → (a < length (arrs h))%nat →
  read_array h' a = read_array h a.
Proof.
  intros Hp Hl. unfold read_array. by rewrite <- (prefix_lookup_lt _ _ _ Hl Hp).
Qed.

Lemma read_object_new os o as_ :
  read_object (mkHeap (os ++ [o]) as_) (length os) = o.
Proof. unfold read_object. simpl. by rewrite list_lookup_middle. Qed.

Lemma read_array_new os as_ a :
  read_array (mkHeap os (as_ ++ [a])) (length as_) = a.
Proof. unfold read_array. simpl. by rewrite list_lookup_middle. Qed.

Lemma alter_new {A} (f : A → A) (l : list A) (x : A) :
  alter f (length l) (l ++ [x]) = l ++ [f x].
Proof.
  replace (length l) with (length l + 0)%nat by lia.
  by rewrite alter_app_r.
Qed.

Lemma stamped_length h i vals : length (stamped h i vals) = length vals.
Proof. revert i. induction vals as [|v vals IH]; intros i; simpl; [done|]. by rewrite IH. Qed.

Lemma stamped_lookup h i vals j v :
  vals !! j = Some v →
  stamped h i vals !! j = Some (<["id" := VNum (Z.of_nat (i + j))]> (read_object h v)).
Proof.
  revert i j. induction vals as [|w vals IH]; intros i j Hj; [done|].
  destruct j as [|j]; simpl in *.
  - inversion Hj; subst. by rewrite Nat.add_0_r.
  - rewrite (IH (S i) j Hj). do 4 f_equal. lia.
Qed.

Lemma stamped_ext h h' i vals :
  Forall (fun l => read_object h' l = read_object h l) vals →
  stamped h' i vals = stamped h i vals.
Proof.
  intros H. revert i. induction H as [|v vals Hv _ IH]; intros i; simpl; [done|].
  by rewrite Hv, IH.
Qed.

(** ** [addButtonIds] *)

Lemma addButtonIds_callback_run val i h c con cl :
  addButtonIds_callback val i (mkState h c con cl) =
  (mkState (mkHeap (objs h ++ [<["id" := VNum (Z.of_nat i)]> (read_object h val)]) (arrs h))
     c con cl,
   Returned (length (objs h))).
Proof.
  unfold addButtonIds_callback, Object_assign_empty, bind, gets, new_object, write_prop, ret.
  unfold heap_write. simpl. by rewrite alter_new.
Qed.

Lemma Array_map_from_addButtonIds vals : ∀ i h c con cl,
  Forall (allocated h) vals →
  Array_map_from addButtonIds_callback i vals (mkState h c con cl) =
  (mkState (mkHeap (objs h ++ stamped h i vals) (arrs h)) c con cl,
   Returned (seq (length (objs h)) (length vals))).
Proof.
  induction vals as [|v vals IH]; intros i h c con cl Hall; simpl.
  - unfold ret. rewrite app_nil_r. by destruct h.
  - inversion Hall as [|? ? Hv Hrest]; subst.
    unfold bind at 1. rewrite addButtonIds_callback_run.
    unfold bind at 1. rewrite IH; simpl.
    + unfold ret. rewrite length_app. simpl.
      rewrite Nat.add_1_r, <- app_assoc. simpl.
      rewrite (stamped_ext h).
      * done.
      * eapply Forall_impl; [|exact Hrest]. intros l Hl.
        apply read_object_preserved; [|done]. simpl. by apply prefix_app_r.
    + eapply Forall_impl; [|exact Hrest]. intros l Hl.
      unfold allocated in *. simpl. rewrite length_app. lia.
Qed.

Lemma addButtonIds_run a h c con cl :
  elements_allocated h a →
  addButtonIds a (mkState h c con cl) =
  (mkState (mkHeap (objs h ++ stamped h 0 (read_array h a))
                   (arrs h ++ [seq (length (objs h)) (length (read_array h a))]))
     c con cl,
   Returned (length (arrs h))).
Proof.
  intros Hall. unfold addButtonIds, bind at 1, gets. simpl.
  unfold bind. by rewrite Array_map_from_addButtonIds.
Qed.

(** What [addButtonIds] leaves behind, in the terms the statements use: the
    new array holds consecutive fresh addresses, and the object at the
    [i]-th of them is the [i]-th input object with [id] set to [i]. *)
Lemma addButtonIds_result a h c con cl :
  elements_allocated h a →
  ∃ h',
    addButtonIds a (mkState h c con cl) =
      (mkState h' c con cl, Returned (length (arrs h))) ∧
    preserved h h' ∧
    length (objs h') = (length (objs h) + length (read_array h a))%nat ∧
    length (arrs h') = S (length (arrs h)) ∧
    read_array h' (length (arrs h)) =
      seq (length (objs h)) (length (read_array h a)) ∧
    ∀ i v, read_array h a !! i = Some v →
      read_object h' (length (objs h) + i) =
        <["id" := VNum (Z.of_nat i)]> (read_object h v).
Proof.
  intros Hall. eexists. split; [by apply addButtonIds_run|].
  split; [split; simpl; by apply prefix_app_r|].
  split; [simpl; by rewrite length_app, stamped_length|].
  split; [simpl; rewrite length_app; simpl; lia|].
  split; [apply read_array_new|].
  intros i v Hv. unfold read_object at 1. simpl.
  rewrite lookup_app_r by lia.
  replace (length (objs h) + i - length (objs h))%nat with i by lia.
  by rewrite (stamped_lookup _ _ _ _ _ Hv).
Qed.

Lemma heap_write_other h l k x l' :
  l' ≠ l → read_object (heap_write h l k x) l' = read_object h l'.
Proof.
  intros Hne. unfold read_object, heap_write. simpl.
  by rewrite list_lookup_alter_ne.
Qed.

Lemma heap_write_same h l k x :
  allocated h l → read_prop (heap_write h l k x) l k = x.
Proof.
  intros Hl. unfold read_prop, read_object, heap_write. simpl.
  rewrite list_lookup_alter_eq.
  destruct (lookup_lt_is_Some_2 _ _ Hl) as [o Ho]. rewrite Ho. simpl.
  by rewrite lookup_insert_eq.
Qed.

Lemma write_prop_other l k x s l' :
  l' ≠ l → read_object (heap (write_prop l k x s).1) l' = read_object (heap s) l'.
Proof. apply heap_write_other. Qed.

(** Two objects whose property [k1] is the address of the same object [sz]:
    [o.k1.k2 = x] is seen as [v.k1.k2]. *)
Lemma write_nested_visible s o v k1 k2 x sz :
  read_prop (heap s) o k1 = VObj sz →
  read_prop (heap s) v k1 = VObj sz →
  allocated (heap s) sz → sz ≠ v →
  ∃ s', write_nested o k1 k2 x s = (s', Returned tt) ∧
        read_nested (heap s') v k1 k2 = x.
Proof.
  intros Ho Hv Hsz Hne. destruct s as [h c con cl]. simpl in *.
  unfold write_nested, bind, gets. simpl. rewrite Ho.
  eexists. split; [reflexivity|]. simpl.
  unfold read_nested, read_prop at 1.
  rewrite heap_write_other by done. fold (read_prop h v k1). rewrite Hv.
  by apply heap_write_same.
Qed.

(** ** Identity assignment *)

(** C6.  For an input array of length N whose elements are objects of the
    store, [addButtonIds] returns a new array of length N whose i-th element
    has [id] equal to i; nothing that was in the store before the call is
    changed (the input array and the input objects included) and the
    component is left alone; every output object is a new object, different
    from every earlier object and from the other outputs, that agrees with
    the i-th input object on every property but [id]; and assigning a
    property of an output object afterwards changes no earlier object. *)
Theorem addButtonIds_assigns_positions (s : State) (a : loc) :
  elements_allocated (heap s) a →
  ∃ s' a',
    addButtonIds a s = (s', Returned a') ∧
    let inp := read_array (heap s) a in
    let out := read_array (heap s') a' in
    length out = length inp ∧
    (∀ i o, out !! i = Some o → read_prop (heap s') o "id" = VNum (Z.of_nat i)) ∧
    preserved (heap s) (heap s') ∧
    read_array (heap s') a = inp ∧
    this s' = this s ∧
    NoDup out ∧
    (∀ i o, out !! i = Some o → ¬ allocated (heap s) o ∧ allocated (heap s') o) ∧
    (∀ i o v k, out !! i = Some o → inp !! i = Some v → k ≠ "id" →
       read_object (heap s') o !! k = read_object (heap s) v !! k) ∧
    (∀ i o k x l, out !! i = Some o → allocated (heap s) l →
       read_object (heap (write_prop o k x s').1) l = read_object (heap s) l).
Proof.
  destruct s as [h c con cl]. simpl. intros Hall.
  destruct (addButtonIds_result a h c con cl Hall)
    as (h' & Hrun & Hpre & Hlen & Hlen' & Hout & Hobj).
  exists (mkState h' c con cl), (length (arrs h)). simpl.
  split; [exact Hrun|]. rewrite Hout.
  split; [by rewrite length_seq|].
  split.
  { intros i o Ho. apply lookup_seq in Ho as [-> Hi].
    destruct (lookup_lt_is_Some_2 (read_array h a) i Hi) as [v Hv].
    unfold read_prop. rewrite (Hobj i v Hv). by rewrite lookup_insert_eq. }
  split; [exact Hpre|].
  split.
  { unfold read_array. destruct (arrs h !! a) as [vs|] eqn:Ha.
    - by rewrite (prefix_lookup_Some _ _ _ _ Ha (proj2 Hpre)).
    - apply lookup_ge_None_1 in Ha.
      destruct (decide (a = length (arrs h))) as [->|Hne].
      + fold (read_array h' (length (arrs h))). rewrite Hout.
        unfold read_array. by rewrite (lookup_ge_None_2 (arrs h)).
      + rewrite (lookup_ge_None_2 (arrs h')); [done|lia]. }
  split; [done|].
  split; [apply NoDup_seq|].
  split.
  { intros i o Ho. apply lookup_seq in Ho as [-> Hi].
    unfold allocated. lia. }
  split.
  { intros i o v k Ho Hv Hk. apply lookup_seq in Ho as [-> Hi].
    rewrite (Hobj i v Hv). by rewrite lookup_insert_ne. }
  intros i o k x l Ho Hl. apply lookup_seq in Ho as [-> Hi].
  etrans;
    [apply (write_prop_other (length (objs h) + i) k x (mkState h' c con cl) l);
     unfold allocated in Hl; lia|].
  by apply read_object_preserved; [apply Hpre|].
Qed.

(** What [Object.assign] copies is the value of each property, an address
    when the property holds an object: for every input object there is an
    output object, a different one, sharing the objects the input refers
    to. *)
Lemma addButtonIds_shares_nested (s : State) (a : loc) :
  elements_allocated (heap s) a →
  ∃ s' a',
    addButtonIds a s = (s', Returned a') ∧
    length (read_array (heap s') a') = length (read_array (heap s) a) ∧
    ∀ i v,
      read_array (heap s) a !! i = Some v →
      ∃ o,
        read_array (heap s') a' !! i = Some o ∧
        o ≠ v ∧
        (∀ k, k ≠ "id" → read_prop (heap s') o k = read_prop (heap s) v k) ∧
        (∀ sz k x,
           read_prop (heap s) v "size" = VObj sz → allocated (heap s) sz → sz ≠ v →
           ∃ s'', write_nested o "size" k x s' = (s'', Returned tt) ∧
                  read_nested (heap s) v "size" k = read_prop (heap s) sz k ∧
                  read_nested (heap s'') v "size" k = x) ∧
        (∀ k x,
           read_prop (heap (write_prop o k x s').1) o k = x ∧
           read_object (heap (write_prop o k x s').1) v = read_object (heap s) v).
Proof.
  destruct s as [h c con cl]. cbn [heap]. intros Hall.
  destruct (addButtonIds_result a h c con cl Hall)
    as (h' & Hrun & Hpre & Hlen & Hlen' & Hout & Hobj).
  exists (mkState h' c con cl), (length (arrs h)). cbn [heap].
  split; [exact Hrun|]. rewrite Hout.
  split; [apply length_seq|].
  intros i v Hv.
  assert (Hi : (i < length (read_array h a))%nat) by (by eapply lookup_lt_Some).
  assert (Hvalloc : allocated h v).
  { eapply Forall_forall; [exact Hall|]. apply list_elem_of_In.
    eapply list_elem_of_lookup_2, Hv. }
  exists (length (objs h) + i)%nat.
  split; [by apply lookup_seq_lt|].
  split; [unfold allocated in Hvalloc; lia|].
  assert (Hshare : ∀ k, k ≠ "id" →
            read_prop h' (length (objs h) + i) k = read_prop h v k).
  { intros k Hk. unfold read_prop. rewrite (Hobj i v Hv).
    by rewrite lookup_insert_ne. }
  split; [exact Hshare|]. split.
  - intros sz k x Hsz Hszalloc Hne.
    destruct (write_nested_visible (mkState h' c con cl)
                (length (objs h) + i)%nat v "size" k x sz) as (s'' & Hw & Hr).
    + cbn [heap]. rewrite Hshare by discriminate. exact Hsz.
    + cbn [heap]. rewrite (read_prop_preserved h h'); [exact Hsz|apply Hpre|exact Hvalloc].
    + cbn [heap]. unfold allocated in *. lia.
    + exact Hne.
    + exists s''. split; [exact Hw|]. split; [|exact Hr].
      unfold read_nested. by rewrite Hsz.
  - intros k x. split.
    + apply (heap_write_same h' (length (objs h) + i)%nat k x).
      unfold allocated. lia.
    + etrans;
        [apply (write_prop_other (length (objs h) + i) k x (mkState h' c con cl) v);
         unfold allocated in Hvalloc; lia|].
      apply read_object_preserved; [apply Hpre|exact Hvalloc].
Qed.

(** ** The defaults built by the constructor *)

Lemma run_new_object {B} o (k : loc → M B) h c con cl :
  (let! l := new_object o in k l) (mkState h c con cl) =
  k (length (objs h)) (mkState (mkHeap (objs h ++ [o]) (arrs h)) c con cl).
Proof. reflexivity. Qed.

Lemma run_new_array {B} a (k : loc → M B) h c con cl :
  (let! l := new_array a in k l) (mkState h c con cl) =
  k (length (arrs h)) (mkState (mkHeap (objs h) (arrs h ++ [a])) c con cl).
Proof. reflexivity. Qed.

Lemma run_gets {A B} (f : State → A) (k : A → M B) s :
  (let! x := gets f in k x) s = k (f s) s.
Proof. reflexivity. Qed.

Lemma button_literal_type cn sz t ti al :
  button_literal cn sz t ti al !! "type" = Some (VNum t).
Proof. unfold button_literal. by simplify_map_eq. Qed.

Lemma button_literal_size cn sz t ti al :
  button_literal cn sz t ti al !! "size" = Some (VObj sz).
Proof. unfold button_literal. by simplify_map_eq. Qed.

(** The state the constructor leaves: one size object and five button
    objects after the objects of the store, four arrays after its arrays,
    the button objects being shared between the arrays. *)
Lemma constructor_run img cfg h c con cl :
  let n := length (objs h) in
  let m := length (arrs h) in
  ∃ sz ocl odl oex orf ode,
    constructor img cfg (mkState h c con cl) =
      (mkState
         (mkHeap (objs h ++ [sz; ocl; odl; oex; orf; ode])
            (arrs h ++ [[n + 1]; [n + 2; n + 1]; [n + 3; n + 2; n + 1];
                        [n + 4; n + 5; n + 3; n + 2; n + 1]]%nat))
         (mkComponent img cfg (fun _ => Some []) None
            n m (m + 1)%nat (m + 2)%nat (m + 3)%nat)
         con cl,
       Returned tt) ∧
    sz = size_literal 30 30 "px" ∧
    (ocl !! "type" = Some (VNum (ButtonType.CLOSE BT)) ∧ ocl !! "size" = Some (VObj n)) ∧
    (odl !! "type" = Some (VNum (ButtonType.DOWNLOAD BT)) ∧ odl !! "size" = Some (VObj n)) ∧
    (oex !! "type" = Some (VNum (ButtonType.EXTURL BT)) ∧ oex !! "size" = Some (VObj n)) ∧
    (orf !! "type" = Some (VNum (ButtonType.REFRESH BT)) ∧ orf !! "size" = Some (VObj n)) ∧
    (ode !! "type" = Some (VNum (ButtonType.DELETE BT)) ∧ ode !! "size" = Some (VObj n)).
Proof.
  intros n m. unfold constructor.
  repeat (first [rewrite run_new_object | rewrite run_new_array | rewrite run_gets];
          cbv beta; cbn [heap objs arrs]).
  rewrite !read_array_new.
  rewrite !length_app. cbn [length].
  rewrite <- !app_assoc. cbn [app].
  rewrite <- !Nat.add_assoc. cbn [Nat.add]. fold n m.
  do 6 eexists. split; [reflexivity|].
  split; [reflexivity|].
  repeat split; first [apply button_literal_type | apply button_literal_size].
Qed.

Lemma read_array_nth os as_ more k a :
  more !! k = Some a → read_array (mkHeap os (as_ ++ more)) (length as_ + k) = a.
Proof.
  intros Hk. unfold read_array. cbn [arrs]. rewrite lookup_app_r by lia.
  replace (length as_ + k - length as_)%nat with k by lia. by rewrite Hk.
Qed.

Lemma read_object_nth os as_ more k o :
  more !! k = Some o → read_object (mkHeap (os ++ more) as_) (length os + k) = o.
Proof.
  intros Hk. unfold read_object. cbn [objs]. rewrite lookup_app_r by lia.
  replace (length os + k - length os)%nat with k by lia. by rewrite Hk.
Qed.

Lemma constructor_constructed img cfg s :
  ∃ s', constructor img cfg s = (s', Returned tt) ∧
        constructed BT s' ∧
        preserved (heap s) (heap s') ∧
        ¬ allocated (heap s) (defaultSize (this s')) ∧
        image (this s') = img ∧ buttonsConfig (this s') = cfg ∧
        console s' = console s ∧ classified s' = classified s.
Proof.
  destruct s as [h c con cl].
  destruct (constructor_run img cfg h c con cl)
    as (sz & ocl & odl & oex & orf & ode & Hrun & _ & Hcl & Hdl & Hex & Hrf & Hde).
  cbv zeta in *. eexists. split; [exact Hrun|].
  set (n := length (objs h)) in *. set (m := length (arrs h)) in *.
  set (h' := mkHeap _ _).
  assert (Hdef : read_array h' m = [n + 1]%nat).
  { replace m with (m + 0)%nat at 1 by lia. by apply read_array_nth. }
  assert (Hsim : read_array h' (m + 1) = [n + 2; n + 1]%nat)
    by (by apply read_array_nth).
  assert (Hadv : read_array h' (m + 2) = [n + 3; n + 2; n + 1]%nat)
    by (by apply read_array_nth).
  assert (Hful : read_array h' (m + 3) = [n + 4; n + 5; n + 3; n + 2; n + 1]%nat)
    by (by apply read_array_nth).
  assert (Hobj : ∀ k o, [sz; ocl; odl; oex; orf; ode] !! k = Some o →
                        read_object h' (n + k) = o)
    by (intros k o Hk; by apply read_object_nth).
  split; [|cbn [heap this console classified defaultSize image buttonsConfig];
           split; [split; by apply prefix_app_r|];
           split; [unfold allocated; fold n; lia|];
           repeat split; reflexivity].
  split; cbn [heap this emitters buttons defaultSize defaultButtonsDefault
              simpleButtonsDefault advancedButtonsDefault fullButtonsDefault].
  - done.
  - done.
  - unfold allocated. subst h'. cbn [objs]. rewrite length_app. cbn [length]. lia.
  - rewrite Hdef. by eexists.
  - rewrite Hsim, Hdef. by eexists.
  - rewrite Hadv, Hsim. by eexists.
  - rewrite Hful, Hadv. by eexists _, _.
  - unfold button_types. rewrite Hful. cbn [fmap list_fmap]. unfold read_prop.
    rewrite (Hobj 4%nat orf), (Hobj 5%nat ode), (Hobj 3%nat oex),
      (Hobj 2%nat odl), (Hobj 1%nat ocl) by done.
    destruct Hcl as [-> _], Hdl as [-> _], Hex as [-> _], Hrf as [-> _], Hde as [-> _].
    done.
  - unfold elements_allocated. rewrite Hful.
    repeat apply Forall_cons_2; try apply Forall_nil_2;
      unfold allocated; subst h'; cbn [objs]; rewrite length_app; cbn [length]; lia.
  - rewrite Hful. intros l Hl. unfold read_prop.
    rewrite !elem_of_cons in Hl.
    destruct Hl as [->|[->|[->|[->|[->|Hl]]]]];
      [..|exfalso; exact (not_elem_of_nil _ Hl)].
    + rewrite (Hobj 4%nat orf) by done. by destruct Hrf as [_ ->].
    + rewrite (Hobj 5%nat ode) by done. by destruct Hde as [_ ->].
    + rewrite (Hobj 3%nat oex) by done. by destruct Hex as [_ ->].
    + rewrite (Hobj 2%nat odl) by done. by destruct Hdl as [_ ->].
    + rewrite (Hobj 1%nat ocl) by done. by destruct Hcl as [_ ->].
Qed.

(** The size object of the defaults: the constructor puts the address of
    the one [defaultSize] object in the [size] of each of its five
    buttons. *)
Lemma constructor_default_sizes img cfg s :
  ∃ s' cl dl ex rf de,
    constructor img cfg s = (s', Returned tt) ∧
    read_array (heap s') (defaultButtonsDefault (this s')) = [cl] ∧
    read_array (heap s') (simpleButtonsDefault (this s')) = [dl; cl] ∧
    read_array (heap s') (advancedButtonsDefault (this s')) = [ex; dl; cl] ∧
    read_array (heap s') (fullButtonsDefault (this s')) = [rf; de; ex; dl; cl] ∧
    allocated (heap s') (defaultSize (this s')) ∧
    ∀ l, l ∈ [cl; dl; ex; rf; de] →
         l ≠ defaultSize (this s') ∧
         read_prop (heap s') l "size" = VObj (defaultSize (this s')).
Proof.
  destruct s as [h c con cl0].
  destruct (constructor_run img cfg h c con cl0)
    as (sz & ocl & odl & oex & orf & ode & Hrun & _ & Hcl & Hdl & Hex & Hrf & Hde).
  cbv zeta in *.
  set (n := length (objs h)) in *. set (m := length (arrs h)) in *.
  eexists _, (n + 1)%nat, (n + 2)%nat, (n + 3)%nat, (n + 4)%nat, (n + 5)%nat.
  split; [exact Hrun|].
  cbn [heap this defaultSize defaultButtonsDefault simpleButtonsDefault
       advancedButtonsDefault fullButtonsDefault].
  split; [replace m with (m + 0)%nat at 1 by lia; by apply read_array_nth|].
  split; [by apply read_array_nth|].
  split; [by apply read_array_nth|].
  split; [by apply read_array_nth|].
  split; [unfold allocated; cbn [objs]; rewrite length_app; cbn [length]; fold n; lia|].
  assert (Hobj : ∀ k o, [sz; ocl; odl; oex; orf; ode] !! k = Some o →
            read_object (mkHeap (objs h ++ [sz; ocl; odl; oex; orf; ode])
                           (arrs h ++ [[n + 1]; [n + 2; n + 1]; [n + 3; n + 2; n + 1];
                                       [n + 4; n + 5; n + 3; n + 2; n + 1]]%nat))
              (n + k) = o)
    by (intros k o Hk; by apply read_object_nth).
  intros l Hl. rewrite !elem_of_cons in Hl. unfold read_prop.
  destruct Hl as [->|[->|[->|[->|[->|Hl]]]]];
    [..|exfalso; exact (not_elem_of_nil _ Hl)].
  - split; [lia|]. rewrite (Hobj 1%nat ocl) by done. by destruct Hcl as [_ ->].
  - split; [lia|]. rewrite (Hobj 2%nat odl) by done. by destruct Hdl as [_ ->].
  - split; [lia|]. rewrite (Hobj 3%nat oex) by done. by destruct Hex as [_ ->].
  - split; [lia|]. rewrite (Hobj 4%nat orf) by done. by destruct Hrf as [_ ->].
  - split; [lia|]. rewrite (Hobj 5%nat ode) by done. by destruct Hde as [_ ->].
Qed.

(** C9.  The copy made by [addButtonIds] is shallow.  For every input
    object there is an output object at the same position, a different
    object, that holds for every property other than [id] the very value
    the input object holds; for [size] that value is the address of the
    size object of the input, so that after [out.size.k = x] reading
    [inp.size.k] gives [x]; an assignment to a property of the output
    object itself is read back from the output and leaves the input object
    as it was.  And the constructor makes five default buttons, held by the
    four default arrays, that all have the one [defaultSize] object as
    their [size]: a write through the [size] of one of them is read back
    through the [size] of every one of them. *)
Theorem addButtonIds_copy_is_shallow (s : State) (a : loc)
    (img : option Image) (cfg : option loc) (s0 : State) :
  (elements_allocated (heap s) a →
   ∃ s' a',
     addButtonIds a s = (s', Returned a') ∧
     length (read_array (heap s') a') = length (read_array (heap s) a) ∧
     ∀ i v,
       read_array (heap s) a !! i = Some v →
       ∃ o,
         read_array (heap s') a' !! i = Some o ∧
         o ≠ v ∧
         (∀ k, k ≠ "id" → read_prop (heap s') o k = read_prop (heap s) v k) ∧
         (∀ sz k x,
            read_prop (heap s) v "size" = VObj sz → allocated (heap s) sz → sz ≠ v →
            ∃ s'', write_nested o "size" k x s' = (s'', Returned tt) ∧
                   read_nested (heap s) v "size" k = read_prop (heap s) sz k ∧
                   read_nested (heap s'') v "size" k = x) ∧
         (∀ k x,
            read_prop (heap (write_prop o k x s').1) o k = x ∧
            read_object (heap (write_prop o k x s').1) v = read_object (heap s) v)) ∧
  (∃ s1 cl dl ex rf de,
     constructor img cfg s0 = (s1, Returned tt) ∧
     read_array (heap s1) (defaultButtonsDefault (this s1)) = [cl] ∧
     read_array (heap s1) (simpleButtonsDefault (this s1)) = [dl; cl] ∧
     read_array (heap s1) (advancedButtonsDefault (this s1)) = [ex; dl; cl] ∧
     read_array (heap s1) (fullButtonsDefault (this s1)) = [rf; de; ex; dl; cl] ∧
     allocated (heap s1) (defaultSize (this s1)) ∧
     ∀ l, l ∈ [cl; dl; ex; rf; de] →
          read_prop (heap s1) l "size" = VObj (defaultSize (this s1)) ∧
          ∀ l' k x, l' ∈ [cl; dl; ex; rf; de] →
                    ∃ s2, write_nested l "size" k x s1 = (s2, Returned tt) ∧
                          read_nested (heap s2) l' "size" k = x).
Proof.
  split; [apply addButtonIds_shares_nested|].
  destruct (constructor_default_sizes img cfg s0)
    as (s1 & cl & dl & ex & rf & de & Hrun & Hd & Hs & Ha & Hf & Hsz & Hall).
  exists s1, cl, dl, ex, rf, de.
  split; [exact Hrun|]. split; [exact Hd|]. split; [exact Hs|].
  split; [exact Ha|]. split; [exact Hf|]. split; [exact Hsz|].
  intros l Hl. destruct (Hall l Hl) as [_ Hlsz]. split; [exact Hlsz|].
  intros l' k x Hl'. destruct (Hall l' Hl') as [Hne Hl'sz].
  apply (write_nested_visible s1 l l' "size" k x (defaultSize (this s1)));
    [exact Hlsz|exact Hl'sz|exact Hsz|by apply not_eq_sym].
Qed.

(** ** Resolution of the strategy *)

Lemma strict_eq_refl v : strict_eq v v = true.
Proof. unfold strict_eq. by apply bool_decide_eq_true_2. Qed.

Lemma strict_eq_ne v w : v ≠ w → strict_eq v w = false.
Proof. intros H. unfold strict_eq. by apply bool_decide_eq_false_2. Qed.

Lemma strict_eq_num_ne a b : a ≠ b → strict_eq (VNum a) (VNum b) = false.
Proof. intros H. apply strict_eq_ne. congruence. Qed.

Lemma addButtonIds_types a h c con cl :
  elements_allocated h a →
  ∃ h', addButtonIds a (mkState h c con cl) =
          (mkState h' c con cl, Returned (length (arrs h))) ∧
        preserved h h' ∧
        button_types h' (length (arrs h)) = button_types h a.
Proof.
  intros Hall.
  destruct (addButtonIds_result a h c con cl Hall)
    as (h' & Hrun & Hpre & Hlen & Hlen' & Hout & Hobj).
  exists h'. split; [exact Hrun|]. split; [exact Hpre|].
  unfold button_types. rewrite Hout. apply list_eq. intros i.
  rewrite !list_lookup_fmap.
  destruct (read_array h a !! i) as [v|] eqn:Hv.
  - rewrite lookup_seq_lt by (by eapply lookup_lt_Some). simpl. f_equal.
    unfold read_prop. rewrite (Hobj i v Hv). by rewrite lookup_insert_ne.
  - rewrite lookup_seq_ge; [done|]. by apply lookup_ge_None_1.
Qed.

Lemma resolve_run arr s :
  elements_allocated (heap s) arr →
  ∃ s' b,
    (let! b := addButtonIds arr in set_buttons b) s = (s', Returned tt) ∧
    buttons (this s') = Some b ∧
    button_types (heap s') b = button_types (heap s) arr ∧
    preserved (heap s) (heap s') ∧
    emitters (this s') = emitters (this s) ∧
    console s' = console s ∧ classified s' = classified s.
Proof.
  destruct s as [h c con cl]. cbn [heap]. intros Hall.
  destruct (addButtonIds_types arr h c con cl Hall) as (h' & Hrun & Hpre & Hty).
  unfold bind at 1. rewrite Hrun.
  unfold set_buttons, set_this, bind, gets. cbn.
  eexists _, _. split; [reflexivity|]. by cbn.
Qed.

Lemma ngOnInit_switch s cfg :
  buttonsConfig (this s) = Some cfg →
  truthy (read_prop (heap s) cfg "strategy") = true →
  ngOnInit s =
  (let strategy := read_prop (heap s) cfg "strategy" in
   if strict_eq strategy (VNum (ButtonsStrategy.SIMPLE BS)) then
     let! b := addButtonIds (simpleButtonsDefault (this s)) in set_buttons b
   else if strict_eq strategy (VNum (ButtonsStrategy.ADVANCED BS)) then
     let! b := addButtonIds (advancedButtonsDefault (this s)) in set_buttons b
   else if strict_eq strategy (VNum (ButtonsStrategy.FULL BS)) then
     let! b := addButtonIds (fullButtonsDefault (this s)) in set_buttons b
   else if strict_eq strategy (VNum (ButtonsStrategy.CUSTOM BS)) then
     let! a := initCustomButtons in
     let! b := addButtonIds a in set_buttons b
   else
     let! b := addButtonIds (defaultButtonsDefault (this s)) in set_buttons b) s.
Proof.
  intros Hcfg Htruthy. unfold ngOnInit. rewrite !run_gets, Hcfg, Htruthy. done.
Qed.

(** The four default arrays of a constructed component, by their types. *)
Lemma constructed_button_types s :
  constructed BT s →
  let h := heap s in
  let c := this s in
  (elements_allocated h (defaultButtonsDefault c) ∧
   button_types h (defaultButtonsDefault c) = VNum <$> [ButtonType.CLOSE BT]) ∧
  (elements_allocated h (simpleButtonsDefault c) ∧
   button_types h (simpleButtonsDefault c) =
     VNum <$> [ButtonType.DOWNLOAD BT; ButtonType.CLOSE BT]) ∧
  (elements_allocated h (advancedButtonsDefault c) ∧
   button_types h (advancedButtonsDefault c) =
     VNum <$> [ButtonType.EXTURL BT; ButtonType.DOWNLOAD BT; ButtonType.CLOSE BT]) ∧
  (elements_allocated h (fullButtonsDefault c) ∧
   button_types h (fullButtonsDefault c) =
     VNum <$> [ButtonType.REFRESH BT; ButtonType.DELETE BT; ButtonType.EXTURL BT;
               ButtonType.DOWNLOAD BT; ButtonType.CLOSE BT]).
Proof.
  intros [_ _ _ [cl Hd] [dl Hs] [ex Ha] [rf [de Hf]] Hty Hal _]. cbv zeta.
  unfold elements_allocated, button_types in *.
  rewrite Hf, Ha, Hs, Hd in Hty, Hal. rewrite Hf, Ha, Hs, Hd.
  cbn [fmap list_fmap] in *.
  inversion Hal as [|? ? ? Hal1]; subst. inversion Hal1 as [|? ? ? Hal2]; subst.
  inversion Hal2 as [|? ? ? Hal3]; subst. inversion Hal3 as [|? ? ? Hal4]; subst.
  injection Hty as -> -> -> -> ->.
  repeat split; done.
Qed.

Lemma strategies_distinct :
  NoDup (ButtonsStrategy.members BS) →
  let D := ButtonsStrategy.DEFAULT BS in
  let S := ButtonsStrategy.SIMPLE BS in
  let A := ButtonsStrategy.ADVANCED BS in
  let F := ButtonsStrategy.FULL BS in
  let C := ButtonsStrategy.CUSTOM BS in
  D ≠ S ∧ D ≠ A ∧ D ≠ F ∧ D ≠ C ∧ S ≠ A ∧ S ≠ F ∧ S ≠ C ∧ A ≠ F ∧ A ≠ C ∧ F ≠ C.
Proof.
  unfold ButtonsStrategy.members. intros H. cbv zeta.
  repeat (apply list.NoDup_cons in H as [? H]).
  repeat match goal with
         | Hn : _ ∉ _ :: _ |- _ => rewrite !not_elem_of_cons in Hn; destruct_and!
         end.
  repeat split; congruence.
Qed.

(** C1.  For a component as the constructor builds it and a configuration
    whose [strategy] is present (it passes the guard [!strategy], that is,
    it is truthy), [ngOnInit] returns with [this.buttons] holding buttons
    of these types, in this order: SIMPLE gives [DOWNLOAD, CLOSE], ADVANCED
    gives [EXTURL, DOWNLOAD, CLOSE], FULL gives [REFRESH, DELETE, EXTURL,
    DOWNLOAD, CLOSE], and DEFAULT or any value that is none of SIMPLE,
    ADVANCED, FULL and CUSTOM gives [CLOSE]; each richer list is the poorer
    one with the extra buttons in front.  The members of the strategy
    enumeration are assumed to be distinct numbers. *)
Theorem ngOnInit_fixed_lists img cfg (s0 : State) :
  NoDup (ButtonsStrategy.members BS) →
  let s1 := (constructor img (Some cfg) s0).1 in
  let strategy := read_prop (heap s1) cfg "strategy" in
  truthy strategy = true →
  (strategy = VNum (ButtonsStrategy.SIMPLE BS) →
   resolves_to ngOnInit s1 [ButtonType.DOWNLOAD BT; ButtonType.CLOSE BT]) ∧
  (strategy = VNum (ButtonsStrategy.ADVANCED BS) →
   resolves_to ngOnInit s1
     [ButtonType.EXTURL BT; ButtonType.DOWNLOAD BT; ButtonType.CLOSE BT]) ∧
  (strategy = VNum (ButtonsStrategy.FULL BS) →
   resolves_to ngOnInit s1
     [ButtonType.REFRESH BT; ButtonType.DELETE BT; ButtonType.EXTURL BT;
      ButtonType.DOWNLOAD BT; ButtonType.CLOSE BT]) ∧
  (strategy = VNum (ButtonsStrategy.DEFAULT BS) ∨
   strategy ∉ VNum <$> [ButtonsStrategy.SIMPLE BS; ButtonsStrategy.ADVANCED BS;
                        ButtonsStrategy.FULL BS; ButtonsStrategy.CUSTOM BS] →
   resolves_to ngOnInit s1 [ButtonType.CLOSE BT]).
Proof.
  intros Hnd.
  destruct (strategies_distinct Hnd)
    as (HDS & HDA & HDF & HDC & HSA & HSF & HSC & HAF & HAC & HFC).
  destruct (constructor_constructed img (Some cfg) s0)
    as (s1 & Hrun & Hc & _ & _ & _ & Hcfg & _).
  rewrite Hrun. cbn [fst]. intros Htruthy.
  destruct (constructed_button_types s1 Hc)
    as ((Hda & Hdt) & (Hsa & Hst) & (Haa & Hat) & (Hfa & Hft)).
  assert (Hres : ∀ arr types,
            elements_allocated (heap s1) arr →
            button_types (heap s1) arr = VNum <$> types →
            ngOnInit s1 = (let! b := addButtonIds arr in set_buttons b) s1 →
            resolves_to ngOnInit s1 types).
  { intros arr types Hal Hty Heq.
    destruct (resolve_run arr s1 Hal) as (s2 & b & Hr & Hb & Hbt & _).
    exists s2, b. split; [exact (eq_trans Heq Hr)|].
    split; [exact Hb|]. exact (eq_trans Hbt Hty). }
  pose proof (ngOnInit_switch s1 cfg Hcfg Htruthy) as Hsw. cbv zeta in Hsw.
  repeat split.
  - intros Hs. apply (Hres _ _ Hsa Hst). rewrite Hsw, Hs.
    by rewrite strict_eq_refl.
  - intros Hs. apply (Hres _ _ Haa Hat). rewrite Hsw, Hs.
    rewrite strict_eq_num_ne by congruence. by rewrite strict_eq_refl.
  - intros Hs. apply (Hres _ _ Hfa Hft). rewrite Hsw, Hs.
    rewrite !strict_eq_num_ne by congruence. by rewrite strict_eq_refl.
  - intros Hs. apply (Hres _ _ Hda Hdt). rewrite Hsw.
    assert (Hout : read_prop (heap s1) cfg "strategy" ∉
              VNum <$> [ButtonsStrategy.SIMPLE BS; ButtonsStrategy.ADVANCED BS;
                        ButtonsStrategy.FULL BS; ButtonsStrategy.CUSTOM BS]).
    { destruct Hs as [Hs|Hs]; [|exact Hs]. rewrite Hs. cbn [fmap list_fmap].
      rewrite !not_elem_of_cons. repeat split; try congruence.
      apply not_elem_of_nil. }
    cbn [fmap list_fmap] in Hout. rewrite !not_elem_of_cons in Hout.
    destruct Hout as (H1 & H2 & H3 & H4 & _).
    by rewrite !strict_eq_ne by done.
Qed.

(** The guard of [ngOnInit] is a test of truthiness: a [strategy] that is
    there but falsy (the number 0, the empty string, [false]) is refused
    like a missing one. *)
Lemma ngOnInit_falsy_strategy s cfg :
  buttonsConfig (this s) = Some cfg →
  truthy (read_prop (heap s) cfg "strategy") = false →
  ngOnInit s = (s, Thrown (Error "ButtonsConfig's strategy is a mandatory field")).
Proof.
  intros Hcfg Hf. unfold ngOnInit. by rewrite !run_gets, Hcfg, Hf.
Qed.

Lemma ngOnInit_custom s cfg :
  NoDup (ButtonsStrategy.members BS) →
  buttonsConfig (this s) = Some cfg →
  read_prop (heap s) cfg "strategy" = VNum (ButtonsStrategy.CUSTOM BS) →
  ButtonsStrategy.CUSTOM BS ≠ 0 →
  ngOnInit s =
  (let! a := initCustomButtons in
   let! b := addButtonIds a in set_buttons b) s.
Proof.
  intros Hnd Hcfg Hs Hnz.
  destruct (strategies_distinct Hnd)
    as (HDS & HDA & HDF & HDC & HSA & HSF & HSC & HAF & HAC & HFC).
  rewrite (ngOnInit_switch s cfg Hcfg).
  - cbv zeta. rewrite Hs. rewrite !strict_eq_num_ne by congruence.
    by rewrite strict_eq_refl.
  - rewrite Hs. cbn [truthy]. by apply negb_true_iff, Z.eqb_neq.
Qed.

(** C7.  When [buttonsConfig] is absent, or is an object without a
    [strategy], [ngOnInit] throws the error that names the strategy as
    mandatory and changes nothing: the store and the component, and so
    [this.buttons], are as before the call, which for a component just
    constructed means that no button list is there. *)
Theorem ngOnInit_mandatory_strategy (s : State) :
  (buttonsConfig (this s) = None ∨
   ∃ cfg, buttonsConfig (this s) = Some cfg ∧
          read_prop (heap s) cfg "strategy" = VUndef) →
  ngOnInit s = (s, Thrown (Error "ButtonsConfig's strategy is a mandatory field")) ∧
  (constructed BT s → buttons (this (ngOnInit s).1) = None).
Proof.
  intros H.
  assert (Hrun : ngOnInit s =
            (s, Thrown (Error "ButtonsConfig's strategy is a mandatory field"))).
  { unfold ngOnInit. rewrite !run_gets.
    destruct H as [->|(cfg & -> & ->)]; reflexivity. }
  split; [exact Hrun|]. rewrite Hrun. intros Hc. apply Hc.
Qed.

(** ** Custom buttons *)

Lemma Array_find_Some {A} (p : A → bool) l x :
  Array_find p l = Some x → p x = true ∧ x ∈ l.
Proof.
  induction l as [|y l IH]; [done|]. simpl.
  destruct (p y) eqn:Hy.
  - intros [= ->]. split; [done|]. apply list_elem_of_here.
  - intros H. destruct (IH H) as [? ?]. split; [done|]. by apply list_elem_of_further.
Qed.

Lemma Array_find_None {A} (p : A → bool) l :
  Array_find p l = None → ∀ x, x ∈ l → p x = false.
Proof.
  induction l as [|y l IH]; intros H x Hx; [by apply elem_of_nil in Hx|].
  simpl in H. destruct (p y) eqn:Hy; [done|].
  apply elem_of_cons in Hx as [->|Hx]; [done|]. by apply IH.
Qed.

Lemma whitelisted_member t :
  t ∈ WHITELIST_BUTTON_TYPES → t ≠ 0 → whitelisted (VNum t) = true.
Proof.
  intros Ht Hnz. unfold whitelisted.
  destruct (Array_find _ _) as [u|] eqn:Hf.
  - apply Array_find_Some in Hf as [Hu _].
    unfold strict_eq in Hu. apply bool_decide_eq_true_1 in Hu as [= ->].
    simpl. by apply negb_true_iff, Z.eqb_neq.
  - apply (Array_find_None _ _ Hf) in Ht. by rewrite strict_eq_refl in Ht.
Qed.

Lemma whitelisted_outside type :
  type ∉ VNum <$> WHITELIST_BUTTON_TYPES → whitelisted type = false.
Proof.
  intros Hout. unfold whitelisted.
  destruct (Array_find _ _) as [u|] eqn:Hf; [|done].
  apply Array_find_Some in Hf as [Hu Hin].
  unfold strict_eq in Hu. apply bool_decide_eq_true_1 in Hu as <-.
  destruct Hout. by apply list_elem_of_fmap_2.
Qed.

Lemma initCustomButtons_callback_run val s :
  initCustomButtons_callback val s =
  (s, if whitelisted (read_prop (heap s) val "type") then Returned tt
      else Thrown (Error "Unknown ButtonType. For custom types use ButtonType.CUSTOM")).
Proof.
  unfold initCustomButtons_callback. rewrite run_gets. fold (whitelisted (read_prop (heap s) val "type")).
  by destruct (whitelisted _).
Qed.

Lemma Array_forEach_valid vals s :
  Forall (fun val => whitelisted (read_prop (heap s) val "type") = true) vals →
  Array_forEach initCustomButtons_callback vals s = (s, Returned tt).
Proof.
  induction 1 as [|val vals Hv _ IH]; [done|].
  simpl. unfold bind. by rewrite initCustomButtons_callback_run, Hv.
Qed.

Lemma Array_forEach_invalid vals s :
  Exists (fun val => whitelisted (read_prop (heap s) val "type") = false) vals →
  Array_forEach initCustomButtons_callback vals s =
  (s, Thrown (Error "Unknown ButtonType. For custom types use ButtonType.CUSTOM")).
Proof.
  induction vals as [|val vals IH]; intros H; [by apply Exists_nil in H|].
  simpl. unfold bind. rewrite initCustomButtons_callback_run.
  destruct (whitelisted (read_prop (heap s) val "type")) eqn:Hv; [|done].
  apply Exists_cons in H as [H|H]; [congruence|]. by apply IH.
Qed.

Lemma run_Object_assign_empty {B} src (k : loc → M B) h c con cl :
  (let! l := Object_assign_empty src in k l) (mkState h c con cl) =
  k (length (objs h))
    (mkState (mkHeap (objs h ++ [match src with
                                 | Some l => read_object h l
                                 | None => ∅
                                 end]) (arrs h)) c con cl).
Proof. reflexivity. Qed.

Lemma run_write_prop {B} l k v (K : M B) h c con cl :
  (let! _ := write_prop l k v in K) (mkState h c con cl) =
  K (mkState (heap_write h l k v) c con cl).
Proof. reflexivity. Qed.

Lemma run_ret {A B} (a : A) (k : A → M B) s : (let! x := ret a in k x) s = k a s.
Proof. reflexivity. Qed.

(** [initCustomButtons] up to the validation loop: the copy of the
    configuration is the only object added, and an empty array is added
    when the configuration has no usable [buttons]. *)
Lemma initCustomButtons_run h c con cl cfg :
  buttonsConfig c = Some cfg →
  let given := read_prop h cfg "buttons" in
  let n := length (objs h) in
  initCustomButtons (mkState h c con cl) =
  (if truthy given then
     let h' := heap_write (mkHeap (objs h ++ [read_object h cfg]) (arrs h))
                 n "buttons" given in
     match given with
     | VArr a =>
         let! _ := Array_forEach initCustomButtons_callback (read_array h' a) in
         ret a
     | _ => throw (TypeError "buttonsConfig.buttons.forEach is not a function")
     end (mkState h' c con cl)
   else
     let h' := heap_write (mkHeap (objs h ++ [read_object h cfg]) (arrs h ++ [[]]))
                 n "buttons" (VArr (length (arrs h))) in
     (let! _ := Array_forEach initCustomButtons_callback
                  (read_array h' (length (arrs h))) in
      ret (length (arrs h))) (mkState h' c con cl)).
Proof.
  intros Hcfg. cbv zeta. unfold initCustomButtons.
  rewrite run_gets. cbn [this]. rewrite Hcfg, run_Object_assign_empty, run_gets.
  cbn [heap]. unfold read_prop at 1 2. rewrite read_object_new.
  fold (read_prop h cfg "buttons").
  destruct (truthy (read_prop h cfg "buttons")) eqn:Ht.
  - rewrite run_ret, run_write_prop. destruct (read_prop h cfg "buttons"); try done.
  - reflexivity.
Qed.

Lemma heap_write_new os as_ o k v :
  heap_write (mkHeap (os ++ [o]) as_) (length os) k v =
  mkHeap (os ++ [<[k := v]> o]) as_.
Proof. unfold heap_write. cbn [objs arrs]. by rewrite alter_new. Qed.

Lemma read_prop_unallocated h l k : ¬ allocated h l → read_prop h l k = VUndef.
Proof.
  intros Hl. unfold read_prop, read_object.
  rewrite lookup_ge_None_2; [done|]. unfold allocated in Hl. lia.
Qed.

(** C5.  [initCustomButtons] on a configuration object [cfg]: without a
    [buttons] property it returns a new, empty array; with [buttons] an
    array whose buttons all have a type of the whitelist it returns that
    very array, its elements as they were; with a button whose type is not
    in the whitelist it throws the error about the unknown type and returns
    no list, the component being untouched.  In no case is an earlier
    object or array of the store changed.  [CUSTOM] is in the whitelist.
    When the strategy is CUSTOM and [initCustomButtons] throws, [ngOnInit]
    throws the same error from the same state, so that [this.buttons] is
    not assigned.  The members of the whitelist are assumed to be truthy
    numbers, since the source tests the result of [find] with [!]; for the
    part on [ngOnInit] the members of the strategy enumeration are assumed
    distinct and CUSTOM truthy. *)
Theorem initCustomButtons_validates (s : State) (cfg : loc) :
  buttonsConfig (this s) = Some cfg →
  let given := read_prop (heap s) cfg "buttons" in
  let unknown := Error "Unknown ButtonType. For custom types use ButtonType.CUSTOM" in
  (given = VUndef →
   ∃ s' a, initCustomButtons s = (s', Returned a) ∧
           read_array (heap s') a = [] ∧ read_array (heap s) a = [] ∧
           preserved (heap s) (heap s') ∧ this s' = this s) ∧
  (∀ a, given = VArr a →
        0 ∉ WHITELIST_BUTTON_TYPES →
        (∀ val, val ∈ read_array (heap s) a →
                ∃ t, t ∈ WHITELIST_BUTTON_TYPES ∧
                     read_prop (heap s) val "type" = VNum t) →
        ∃ s', initCustomButtons s = (s', Returned a) ∧
              read_array (heap s') a = read_array (heap s) a ∧
              preserved (heap s) (heap s') ∧ this s' = this s) ∧
  (∀ a val, given = VArr a →
            val ∈ read_array (heap s) a → allocated (heap s) val →
            read_prop (heap s) val "type" ∉ VNum <$> WHITELIST_BUTTON_TYPES →
            ∃ s', initCustomButtons s = (s', Thrown unknown) ∧
                  preserved (heap s) (heap s') ∧ this s' = this s) ∧
  ButtonType.CUSTOM BT ∈ WHITELIST_BUTTON_TYPES ∧
  (NoDup (ButtonsStrategy.members BS) →
   read_prop (heap s) cfg "strategy" = VNum (ButtonsStrategy.CUSTOM BS) →
   ButtonsStrategy.CUSTOM BS ≠ 0 →
   ∀ s' e, initCustomButtons s = (s', Thrown e) → ngOnInit s = (s', Thrown e)).
Proof.
  intros Hcfg. cbv zeta.
  assert (Hng : NoDup (ButtonsStrategy.members BS) →
            read_prop (heap s) cfg "strategy" = VNum (ButtonsStrategy.CUSTOM BS) →
            ButtonsStrategy.CUSTOM BS ≠ 0 →
            ∀ s' e, initCustomButtons s = (s', Thrown e) → ngOnInit s = (s', Thrown e)).
  { intros Hnd Hs Hnz s' e Hthrow.
    rewrite (ngOnInit_custom s cfg Hnd Hcfg Hs Hnz). unfold bind at 1.
    by rewrite Hthrow. }
  revert Hng. destruct s as [h c con cl]. cbn [heap this] in *. intros Hng.
  pose proof (initCustomButtons_run h c con cl cfg Hcfg) as Hrun. cbv zeta in Hrun.
  rewrite !heap_write_new in Hrun.
  assert (Hpre : ∀ o as', preserved h (mkHeap (objs h ++ [o]) (arrs h ++ as'))).
  { intros o as'. split; cbn [objs arrs]; by apply prefix_app_r. }
  repeat split.
  - intros Hg. rewrite Hg in Hrun. cbn [truthy] in Hrun.
    rewrite read_array_new in Hrun.
    eexists _, _. split; [exact Hrun|]. cbn [heap this].
    rewrite read_array_new. repeat split; try done; try apply Hpre.
    unfold read_array. by rewrite lookup_ge_None_2.
  - intros a Hg Hnz Hall. rewrite Hg in Hrun. cbn [truthy] in Hrun.
    unfold bind in Hrun. rewrite Array_forEach_valid in Hrun.
    + eexists. split; [exact Hrun|]. cbn [heap this]. repeat split; try done.
      * cbn [objs]. by apply prefix_app_r.
    + apply Forall_forall. intros val Hval. cbn [heap].
      apply list_elem_of_In in Hval.
      change (read_array _ a) with (read_array h a) in Hval.
      destruct (Hall val Hval) as (t & Ht & Hty).
      rewrite (read_prop_preserved h).
      * rewrite Hty. apply whitelisted_member; [done|]. by intros ->.
      * cbn [objs]. by apply prefix_app_r.
      * destruct (decide (val < length (objs h))%nat) as [|Hna]; [done|].
        by rewrite (read_prop_unallocated h val "type" Hna) in Hty.
  - intros a val Hg Hval Hal Hout. rewrite Hg in Hrun. cbn [truthy] in Hrun.
    unfold bind in Hrun. rewrite Array_forEach_invalid in Hrun.
    + eexists. split; [exact Hrun|]. cbn [heap this]. repeat split; try done.
      cbn [objs]. by apply prefix_app_r.
    + apply Exists_exists. exists val.
      split; [apply list_elem_of_In; exact Hval|]. cbn [heap].
      rewrite (read_prop_preserved h); [by apply whitelisted_outside| |done].
      cbn [objs]. by apply prefix_app_r.
  - unfold WHITELIST_BUTTON_TYPES. set_solver.
  - exact Hng.
Qed.

(** ** Routing of events *)

Lemma trigger_present ch ev b i d s :
  triggerOnMouseAndKeyboard (Some ch) ev b i d s =
  (if handleImageEvent ev =? NEXT
   then emit ch (mkButtonEvent i b d)
   else ret tt)
    (mkState (heap s) (this s) (console s) (classified s ++ [ev])).
Proof.
  unfold triggerOnMouseAndKeyboard, super_handleImageEvent, bind, ret.
  by destruct (handleImageEvent ev =? NEXT).
Qed.

Lemma trigger_missing ev b i d s :
  triggerOnMouseAndKeyboard None ev b i d s =
  (mkState (heap s) (this s)
     (console s ++ ["UpperButtonsComponent unknown emitter in triggerOnMouseAndKeyboard"])
     (classified s ++ [ev]),
   if handleImageEvent ev =? NEXT
   then Thrown (TypeError "Cannot read property 'emit' of undefined")
   else Returned tt).
Proof.
  unfold triggerOnMouseAndKeyboard, super_handleImageEvent, console_error, bind, ret, throw.
  cbn. by destruct (handleImageEvent ev =? NEXT).
Qed.

Lemma trigger_classifies em ev b i d s :
  classified (triggerOnMouseAndKeyboard em ev b i d s).1 = classified s ++ [ev] ∧
  heap (triggerOnMouseAndKeyboard em ev b i d s).1 = heap s.
Proof.
  destruct em as [ch|].
  - rewrite trigger_present. by destruct (handleImageEvent ev =? NEXT).
  - by rewrite trigger_missing.
Qed.

Lemma trigger_other em ev b i d s :
  handleImageEvent ev ≠ NEXT →
  this (triggerOnMouseAndKeyboard em ev b i d s).1 = this s ∧
  (triggerOnMouseAndKeyboard em ev b i d s).2 = Returned tt.
Proof.
  intros Hne. apply Z.eqb_neq in Hne.
  destruct em as [ch|].
  - by rewrite trigger_present, Hne.
  - by rewrite trigger_missing, Hne.
Qed.

Lemma trigger_activation ch ev b i d s :
  handleImageEvent ev = NEXT →
  emitters (this s) ch ≠ None →
  ∃ s', triggerOnMouseAndKeyboard (output (this s) ch) ev b i d s = (s', Returned tt) ∧
        emitted_once s s' ch (mkButtonEvent i b d) ∧
        heap s' = heap s ∧ console s' = console s ∧
        classified s' = classified s ++ [ev].
Proof.
  intros Hact Hem. unfold output.
  destruct (emitters (this s) ch) as [log|] eqn:Hlog; [|done].
  rewrite trigger_present. apply Z.eqb_eq in Hact. rewrite Hact.
  eexists. split; [reflexivity|].
  unfold emitted_once. cbn [this emitters heap console classified].
  repeat split; try done.
  - exists log. split; [done|]. by rewrite fn_lookup_insert, Hlog.
  - intros ch' Hne. by rewrite fn_lookup_insert_ne.
Qed.

Ltac split_NoDup H :=
  repeat (apply list.NoDup_cons in H as [? H]);
  repeat match goal with
         | Hn : _ ∉ _ :: _ |- _ => rewrite !not_elem_of_cons in Hn; destruct_and!
         end.

Lemma onEvent_switch b i ev s :
  onEvent b i (Some ev) s =
  (let c := this s in
   let type := read_prop (heap s) b "type" in
   if strict_eq type (VNum (ButtonType.REFRESH BT)) then
     triggerOnMouseAndKeyboard (output c Channel.refresh) ev b i (VBool true)
   else if strict_eq type (VNum (ButtonType.DELETE BT)) then
     triggerOnMouseAndKeyboard (output c Channel.delete) ev b i (VBool true)
   else if strict_eq type (VNum (ButtonType.EXTURL BT)) then
     match usable_url c with
     | Some url =>
         triggerOnMouseAndKeyboard (output c Channel.navigate) ev b i (VStr url)
     | None => ret tt
     end
   else if strict_eq type (VNum (ButtonType.DOWNLOAD BT)) then
     triggerOnMouseAndKeyboard (output c Channel.download) ev b i (VBool true)
   else if strict_eq type (VNum (ButtonType.CLOSE BT)) then
     triggerOnMouseAndKeyboard (output c Channel.close) ev b i (VBool true)
   else if strict_eq type (VNum (ButtonType.CUSTOM BT)) then
     triggerOnMouseAndKeyboard (output c Channel.customEmit) ev b i (VBool true)
   else throw (Error "Unknown button's type into ButtonConfig")) s.
Proof.
  unfold onEvent. rewrite !run_gets. cbv zeta. unfold usable_url.
  repeat (destruct (strict_eq _ _); [reflexivity|]).
  destruct (strict_eq _ _); [|reflexivity].
  destruct (image (this s)) as [img|]; [|reflexivity].
  destruct (extUrl img) as [url|]; [|reflexivity].
  by destruct (truthy (VStr url)).
Qed.

(** The buttons that carry [true]: type and emitter. *)
Lemma onEvent_routes b i ev s t ch :
  NoDup (ButtonType.members BT) →
  (t, ch) ∈ [(ButtonType.REFRESH BT, Channel.refresh);
             (ButtonType.DELETE BT, Channel.delete);
             (ButtonType.DOWNLOAD BT, Channel.download);
             (ButtonType.CLOSE BT, Channel.close);
             (ButtonType.CUSTOM BT, Channel.customEmit)] →
  read_prop (heap s) b "type" = VNum t →
  onEvent b i (Some ev) s =
  triggerOnMouseAndKeyboard (output (this s) ch) ev b i (VBool true) s.
Proof.
  intros Hnd Hin Hty. unfold ButtonType.members in Hnd. split_NoDup Hnd.
  rewrite onEvent_switch. cbv zeta. rewrite Hty.
  repeat (apply elem_of_cons in Hin as [[= -> ->]|Hin]);
    [..|by apply elem_of_nil in Hin];
    rewrite ?strict_eq_num_ne by congruence; by rewrite strict_eq_refl.
Qed.

Lemma onEvent_exturl b i ev s :
  NoDup (ButtonType.members BT) →
  read_prop (heap s) b "type" = VNum (ButtonType.EXTURL BT) →
  onEvent b i (Some ev) s =
  match usable_url (this s) with
  | Some url =>
      triggerOnMouseAndKeyboard (output (this s) Channel.navigate) ev b i (VStr url) s
  | None => (s, Returned tt)
  end.
Proof.
  intros Hnd Hty. unfold ButtonType.members in Hnd. split_NoDup Hnd.
  rewrite onEvent_switch. cbv zeta. rewrite Hty.
  rewrite !strict_eq_num_ne by congruence. rewrite strict_eq_refl.
  by destruct (usable_url (this s)).
Qed.

Lemma onEvent_unknown b i ev s :
  read_prop (heap s) b "type" ∉ VNum <$> ButtonType.members BT →
  onEvent b i (Some ev) s =
  (s, Thrown (Error "Unknown button's type into ButtonConfig")).
Proof.
  intros Hout. rewrite onEvent_switch. cbv zeta.
  unfold ButtonType.members in Hout. cbn [fmap list_fmap] in Hout.
  rewrite !not_elem_of_cons in Hout. destruct_and!.
  by rewrite !strict_eq_ne by done.
Qed.

Lemma usable_url_Some c img url :
  image c = Some img → extUrl img = Some url → url ≠ "" → usable_url c = Some url.
Proof.
  intros Hi Hu Hne. unfold usable_url. rewrite Hi, Hu. cbn [truthy].
  destruct (String.eqb url "") eqn:He; [|done].
  by apply String.eqb_eq in He.
Qed.

Lemma usable_url_None c :
  (image c = None ∨
   ∃ img, image c = Some img ∧ (extUrl img = None ∨ extUrl img = Some "")) →
  usable_url c = None.
Proof.
  unfold usable_url. intros [->|(img & -> & [->| ->])]; reflexivity.
Qed.

(** C2, as the source has it.  For an event that [handleImageEvent]
    classifies as [NEXT]: a button of type REFRESH, DELETE, DOWNLOAD, CLOSE
    or CUSTOM makes [onEvent] emit exactly one event, on [refresh],
    [delete], [download], [close] or [customEmit] respectively, made of the
    index and the button of the call and of the payload [true], when the
    emitter of that channel is there; a button of type EXTURL does so on
    [navigate], with the URL as payload, provided the image has a non-empty
    [extUrl]; without an image, or without a non-empty [extUrl], it makes
    [onEvent] return with the state, and so every emitter, as before:
    nothing is emitted; a button whose type is none of the six members
    makes [onEvent] throw the error about the unknown type, the state, and
    so every emitter, being as before.  The members of the enumeration are
    assumed to be distinct numbers. *)
Theorem onEvent_dispatch (s : State) (b : loc) (i : Z) (ev : DomEvent) :
  NoDup (ButtonType.members BT) →
  handleImageEvent ev = NEXT →
  let type := read_prop (heap s) b "type" in
  (∀ t ch,
     (t, ch) ∈ [(ButtonType.REFRESH BT, Channel.refresh);
                (ButtonType.DELETE BT, Channel.delete);
                (ButtonType.DOWNLOAD BT, Channel.download);
                (ButtonType.CLOSE BT, Channel.close);
                (ButtonType.CUSTOM BT, Channel.customEmit)] →
     type = VNum t →
     emitters (this s) ch ≠ None →
     ∃ s', onEvent b i (Some ev) s = (s', Returned tt) ∧
           emitted_once s s' ch (mkButtonEvent i b (VBool true))) ∧
  (∀ img url,
     type = VNum (ButtonType.EXTURL BT) →
     image (this s) = Some img → extUrl img = Some url → url ≠ "" →
     emitters (this s) Channel.navigate ≠ None →
     ∃ s', onEvent b i (Some ev) s = (s', Returned tt) ∧
           emitted_once s s' Channel.navigate (mkButtonEvent i b (VStr url))) ∧
  (type = VNum (ButtonType.EXTURL BT) →
   (image (this s) = None ∨
    ∃ img, image (this s) = Some img ∧
           (extUrl img = None ∨ extUrl img = Some "")) →
   onEvent b i (Some ev) s = (s, Returned tt) ∧
   no_emission s (onEvent b i (Some ev) s).1) ∧
  (type ∉ VNum <$> ButtonType.members BT →
   onEvent b i (Some ev) s =
     (s, Thrown (Error "Unknown button's type into ButtonConfig")) ∧
   no_emission s (onEvent b i (Some ev) s).1).
Proof.
  intros Hnd Hact. cbv zeta. split; [|split; [|split]].
  - intros t ch Hin Hty Hem. rewrite (onEvent_routes b i ev s t ch Hnd Hin Hty).
    destruct (trigger_activation ch ev b i (VBool true) s Hact Hem)
      as (s' & Hrun & Hone & _).
    by exists s'.
  - intros img url Hty Himg Hurl Hne Hem. rewrite (onEvent_exturl b i ev s Hnd Hty).
    rewrite (usable_url_Some _ img url Himg Hurl Hne).
    destruct (trigger_activation Channel.navigate ev b i (VStr url) s Hact Hem)
      as (s' & Hrun & Hone & _).
    by exists s'.
  - intros Hty Hno.
    rewrite (onEvent_exturl b i ev s Hnd Hty), (usable_url_None _ Hno).
    split; [reflexivity|]. by intros ch.
  - intros Hout. rewrite (onEvent_unknown b i ev s Hout).
    split; [reflexivity|]. by intros ch.
Qed.

(** C3.  For a button of type EXTURL: when the image is absent, or its
    [extUrl] is absent or empty, [onEvent] returns without an error and
    leaves the state, and so every emitter, as it was, whatever the event;
    when [extUrl] is a non-empty string, the event is classified as [NEXT]
    and the [navigate] emitter is there, [onEvent] emits exactly one event,
    on [navigate], with that string as payload. *)
Theorem onEvent_exturl_gate (s : State) (b : loc) (i : Z) :
  NoDup (ButtonType.members BT) →
  read_prop (heap s) b "type" = VNum (ButtonType.EXTURL BT) →
  (∀ event,
     (image (this s) = None ∨
      ∃ img, image (this s) = Some img ∧
             (extUrl img = None ∨ extUrl img = Some "")) →
     onEvent b i event s = (s, Returned tt)) ∧
  (∀ ev img url,
     image (this s) = Some img → extUrl img = Some url → url ≠ "" →
     handleImageEvent ev = NEXT →
     emitters (this s) Channel.navigate ≠ None →
     ∃ s', onEvent b i (Some ev) s = (s', Returned tt) ∧
           emitted_once s s' Channel.navigate (mkButtonEvent i b (VStr url))).
Proof.
  intros Hnd Hty. split.
  - intros [ev|] Hno; [|reflexivity].
    by rewrite (onEvent_exturl b i ev s Hnd Hty), (usable_url_None _ Hno).
  - intros ev img url Himg Hurl Hne Hact Hem.
    rewrite (onEvent_exturl b i ev s Hnd Hty).
    rewrite (usable_url_Some _ img url Himg Hurl Hne).
    destruct (trigger_activation Channel.navigate ev b i (VStr url) s Hact Hem)
      as (s' & Hrun & Hone & _).
    by exists s'.
Qed.

Lemma onEvent_other b i ev s :
  handleImageEvent ev ≠ NEXT → this (onEvent b i (Some ev) s).1 = this s.
Proof.
  intros Hne. rewrite onEvent_switch. cbv zeta.
  repeat (destruct (strict_eq _ _); [by apply trigger_other|]).
  destruct (strict_eq _ _).
  - destruct (usable_url (this s)); [by apply trigger_other|done].
  - repeat (destruct (strict_eq _ _); [by apply trigger_other|]). done.
Qed.

(** C8.  [onEvent] emits only for an event that is there and that
    [handleImageEvent] classifies as [NEXT]: without an event the call
    returns and changes nothing at all; with an event classified otherwise
    the component, and so every emitter, is as before; hence whenever some
    emitter has emitted, the event was there and was classified as
    [NEXT]. *)
Theorem onEvent_only_on_activation (s : State) (b : loc) (i : Z)
    (event : option DomEvent) :
  (event = None → onEvent b i event s = (s, Returned tt)) ∧
  (∀ ev, event = Some ev → handleImageEvent ev ≠ NEXT →
         this (onEvent b i event s).1 = this s ∧
         no_emission s (onEvent b i event s).1) ∧
  (¬ no_emission s (onEvent b i event s).1 →
   ∃ ev, event = Some ev ∧ handleImageEvent ev = NEXT).
Proof.
  split; [by intros ->|]. split.
  - intros ev -> Hne. pose proof (onEvent_other b i ev s Hne) as Hthis.
    split; [exact Hthis|]. intros ch. by rewrite Hthis.
  - intros Hemit. destruct event as [ev|]; [|by destruct Hemit].
    exists ev. split; [done|].
    destruct (decide (handleImageEvent ev = NEXT)) as [|Hne]; [done|].
    destruct Hemit. intros ch. by rewrite (onEvent_other b i ev s Hne).
Qed.

(** C10.  [onEvent] looks at the type of the button before it hands the
    event to [handleImageEvent].  For every event that is there, classified
    as [NEXT] or not: a button whose type is none of the six members makes
    the call throw the error about the unknown type, and a button of type
    EXTURL on a component without a usable URL makes it return; in both
    cases the state is as before the call, so nothing was handed to
    [handleImageEvent].  In every other case the event is handed to it
    exactly once. *)
Theorem onEvent_type_before_event (s : State) (b : loc) (i : Z) (ev : DomEvent) :
  NoDup (ButtonType.members BT) →
  let type := read_prop (heap s) b "type" in
  let s' := (onEvent b i (Some ev) s).1 in
  (type ∉ VNum <$> ButtonType.members BT →
   onEvent b i (Some ev) s =
     (s, Thrown (Error "Unknown button's type into ButtonConfig")) ∧
   classified s' = classified s) ∧
  (type = VNum (ButtonType.EXTURL BT) → usable_url (this s) = None →
   onEvent b i (Some ev) s = (s, Returned tt) ∧
   classified s' = classified s) ∧
  (type ∈ VNum <$> ButtonType.members BT →
   (type = VNum (ButtonType.EXTURL BT) → usable_url (this s) ≠ None) →
   classified s' = classified s ++ [ev]).
Proof.
  intros Hnd. cbv zeta. split; [|split].
  - intros Hout. by rewrite onEvent_unknown.
  - intros Hex Hno. by rewrite onEvent_exturl, Hno.
  - intros Hin Hurl.
    destruct (decide (read_prop (heap s) b "type" = VNum (ButtonType.EXTURL BT)))
      as [Hex|Hnex].
    + rewrite (onEvent_exturl b i ev s Hnd Hex).
      destruct (usable_url (this s)) as [url|]; [|by destruct (Hurl Hex)].
      apply trigger_classifies.
    + unfold ButtonType.members in Hin. cbn [fmap list_fmap] in Hin.
      assert (∃ t ch,
                (t, ch) ∈ [(ButtonType.REFRESH BT, Channel.refresh);
                           (ButtonType.DELETE BT, Channel.delete);
                           (ButtonType.DOWNLOAD BT, Channel.download);
                           (ButtonType.CLOSE BT, Channel.close);
                           (ButtonType.CUSTOM BT, Channel.customEmit)] ∧
                read_prop (heap s) b "type" = VNum t) as (t & ch & Htc & Hty).
      { rewrite !elem_of_cons in Hin.
        destruct Hin as [H|[H|[H|[H|[H|[H|H]]]]]];
          [exists (ButtonType.REFRESH BT), Channel.refresh
          |exists (ButtonType.DELETE BT), Channel.delete
          |done
          |exists (ButtonType.DOWNLOAD BT), Channel.download
          |exists (ButtonType.CLOSE BT), Channel.close
          |exists (ButtonType.CUSTOM BT), Channel.customEmit
          |by apply elem_of_nil in H];
          (split; [set_solver|exact H]). }
      rewrite (onEvent_routes b i ev s t ch Hnd Htc Hty).
      apply trigger_classifies.
Qed.

(** * Further properties of the component *)

(** ** [addButtonIds] and [trackById] without a condition on the store *)

Lemma Array_map_from_stamps vals : ∀ i h c con cl,
  ∃ os,
    Array_map_from addButtonIds_callback i vals (mkState h c con cl) =
      (mkState (mkHeap (objs h ++ os) (arrs h)) c con cl,
       Returned (seq (length (objs h)) (length vals))) ∧
    length os = length vals ∧
    ∀ j o, os !! j = Some o → o !! "id" = Some (VNum (Z.of_nat (i + j))).
Proof.
  induction vals as [|v vals IH]; intros i h c con cl.
  - exists []. cbn [Array_map_from]. unfold ret. rewrite app_nil_r.
    destruct h. split; [reflexivity|]. split; [reflexivity|].
    intros j o Hj. by rewrite lookup_nil in Hj.
  - cbn [Array_map_from]. unfold bind at 1. rewrite addButtonIds_callback_run.
    destruct (IH (S i)
                (mkHeap (objs h ++ [<["id" := VNum (Z.of_nat i)]> (read_object h v)])
                   (arrs h)) c con cl) as (os & Hrun & Hlen & Hid).
    exists (<["id" := VNum (Z.of_nat i)]> (read_object h v) :: os).
    unfold bind at 1. rewrite Hrun. unfold ret. cbn [objs arrs length].
    rewrite length_app. cbn [length]. rewrite Nat.add_1_r, <- app_assoc.
    split; [reflexivity|]. split; [by rewrite Hlen|].
    intros [|j] o Hj; cbn in Hj.
    + injection Hj as <-. rewrite Nat.add_0_r. apply lookup_insert_eq.
    + rewrite (Hid j o Hj). do 3 f_equal. lia.
Qed.

(** [addButtonIds] cannot fail, whatever the array holds: it adds one object
    per element and one array to the store and changes nothing else. *)
Lemma addButtonIds_total a h c con cl :
  ∃ h',
    addButtonIds a (mkState h c con cl) =
      (mkState h' c con cl, Returned (length (arrs h))) ∧
    preserved h h' ∧
    length (objs h') = (length (objs h) + length (read_array h a))%nat ∧
    length (arrs h') = S (length (arrs h)) ∧
    read_array h' (length (arrs h)) =
      seq (length (objs h)) (length (read_array h a)) ∧
    ∀ i, (i < length (read_array h a))%nat →
         read_prop h' (length (objs h) + i) "id" = VNum (Z.of_nat i).
Proof.
  destruct (Array_map_from_stamps (read_array h a) 0 h c con cl)
    as (os & Hrun & Hlen & Hid).
  eexists. split.
  { unfold addButtonIds. rewrite run_gets. cbn [heap]. unfold bind at 1.
    rewrite Hrun. reflexivity. }
  cbn [heap objs arrs].
  split; [split; cbn [objs arrs]; by apply prefix_app_r|].
  split; [by rewrite length_app, Hlen|].
  split; [rewrite length_app; cbn [length]; lia|].
  split; [apply read_array_new|].
  intros i Hi. unfold read_prop, read_object. cbn [objs].
  rewrite lookup_app_r by lia.
  replace (length (objs h) + i - length (objs h))%nat with i by lia.
  destruct (lookup_lt_is_Some_2 os i) as [o Ho]; [lia|].
  rewrite Ho. simpl. by rewrite (Hid i o Ho).
Qed.

(** X1.  [addButtonIds] is total.  For every state and every array address it
    returns, with a new array as long as the input (empty for an empty
    input) whose i-th element carries [id] i; exactly as many objects as
    the input has elements and exactly one array are added to the store,
    and nothing else changes: the component, the console and the earlier
    objects and arrays are as before. *)
Theorem addButtonIds_never_fails (s : State) (a : loc) :
  ∃ s' a',
    addButtonIds a s = (s', Returned a') ∧
    a' = length (arrs (heap s)) ∧
    this s' = this s ∧ console s' = console s ∧ classified s' = classified s ∧
    preserved (heap s) (heap s') ∧
    length (objs (heap s')) =
      (length (objs (heap s)) + length (read_array (heap s) a))%nat ∧
    length (arrs (heap s')) = S (length (arrs (heap s))) ∧
    length (read_array (heap s') a') = length (read_array (heap s) a) ∧
    (read_array (heap s) a = [] → read_array (heap s') a' = []) ∧
    ∀ i o, read_array (heap s') a' !! i = Some o →
           read_prop (heap s') o "id" = VNum (Z.of_nat i).
Proof.
  destruct s as [h c con cl]. cbn [heap this console classified].
  destruct (addButtonIds_total a h c con cl)
    as (h' & Hrun & Hpre & Hobjs & Harrs & Hout & Hid).
  exists (mkState h' c con cl), (length (arrs h)).
  cbn [heap this console classified].
  split; [exact Hrun|]. split; [reflexivity|].
  split; [reflexivity|]. split; [reflexivity|]. split; [reflexivity|].
  split; [exact Hpre|]. split; [exact Hobjs|]. split; [exact Harrs|].
  rewrite Hout. split; [apply length_seq|].
  split; [by intros ->|].
  intros i o Ho. apply lookup_seq in Ho as [-> Hi]. by apply Hid.
Qed.

(** X2.  [trackById] on the buttons [addButtonIds] returns.  The key of the
    button at position i is the number i, whatever index is passed along,
    and reading it changes nothing; so two positions have the same key only
    if they are the same position. *)
Theorem trackById_is_position (s : State) (a : loc) :
  ∃ s' a',
    addButtonIds a s = (s', Returned a') ∧
    (∀ i o k, read_array (heap s') a' !! i = Some o →
              trackById k o s' = (s', Returned (VNum (Z.of_nat i)))) ∧
    (∀ i j o o' k k' key,
       read_array (heap s') a' !! i = Some o →
       read_array (heap s') a' !! j = Some o' →
       trackById k o s' = (s', Returned key) →
       trackById k' o' s' = (s', Returned key) →
       i = j).
Proof.
  destruct s as [h c con cl].
  destruct (addButtonIds_total a h c con cl)
    as (h' & Hrun & Hpre & Hobjs & Harrs & Hout & Hid).
  exists (mkState h' c con cl), (length (arrs h)).
  cbn [heap]. split; [exact Hrun|].
  assert (Hkey : ∀ i o k, read_array h' (length (arrs h)) !! i = Some o →
            trackById k o (mkState h' c con cl) =
              (mkState h' c con cl, Returned (VNum (Z.of_nat i)))).
  { intros i o k Ho. rewrite Hout in Ho. apply lookup_seq in Ho as [-> Hi].
    unfold trackById. rewrite run_gets. cbn [heap]. unfold ret.
    by rewrite (Hid i Hi). }
  split; [exact Hkey|].
  intros i j o o' k k' key Ho Ho' Hk Hk'.
  rewrite (Hkey i o k Ho) in Hk. rewrite (Hkey j o' k' Ho') in Hk'.
  injection Hk as <-. injection Hk' as Hij. lia.
Qed.

(** X3.  Stamping twice.  [addButtonIds] applied to the array it returned
    gives new objects, different from those of the first pass, with exactly
    the properties of the first pass: the [id] already there is overwritten
    by the same position. *)
Theorem addButtonIds_twice (s : State) (a : loc) :
  elements_allocated (heap s) a →
  ∃ s1 a1 s2 a2,
    addButtonIds a s = (s1, Returned a1) ∧
    addButtonIds a1 s1 = (s2, Returned a2) ∧
    length (read_array (heap s2) a2) = length (read_array (heap s) a) ∧
    ∀ i o1 o2,
      read_array (heap s1) a1 !! i = Some o1 →
      read_array (heap s2) a2 !! i = Some o2 →
      o2 ≠ o1 ∧ read_object (heap s2) o2 = read_object (heap s1) o1.
Proof.
  destruct s as [h c con cl]. cbn [heap]. intros Hall.
  destruct (addButtonIds_result a h c con cl Hall)
    as (h1 & Hrun1 & Hpre1 & Hlen1 & Hlen1' & Hout1 & Hobj1).
  assert (Hall1 : elements_allocated h1 (length (arrs h))).
  { unfold elements_allocated. rewrite Hout1. apply Forall_forall.
    intros l Hl. apply list_elem_of_In, list_elem_of_lookup in Hl as [i Hi].
    apply lookup_seq in Hi as [-> Hi]. unfold allocated. lia. }
  destruct (addButtonIds_result (length (arrs h)) h1 c con cl Hall1)
    as (h2 & Hrun2 & Hpre2 & Hlen2 & Hlen2' & Hout2 & Hobj2).
  exists (mkState h1 c con cl), (length (arrs h)),
         (mkState h2 c con cl), (length (arrs h1)).
  cbn [heap]. split; [exact Hrun1|]. split; [exact Hrun2|].
  rewrite Hout2, Hout1, !length_seq. split; [reflexivity|].
  intros i o1 o2 Ho1 Ho2.
  pose proof Ho1 as Ho1'.
  apply lookup_seq in Ho1 as [-> Hi]. apply lookup_seq in Ho2 as [-> _].
  split; [lia|].
  rewrite <- Hout1 in Ho1'.
  rewrite (Hobj2 i _ Ho1').
  destruct (lookup_lt_is_Some_2 (read_array h a) i Hi) as [v Hv].
  rewrite (Hobj1 i v Hv). apply insert_insert_eq.
Qed.

(** ** What [ngOnInit] leaves alone *)

Lemma preserved_refl h : preserved h h.
Proof. split; reflexivity. Qed.

Lemma preserved_trans h1 h2 h3 : preserved h1 h2 → preserved h2 h3 → preserved h1 h3.
Proof. intros [Ho Ha] [Ho' Ha']. split; etrans; eassumption. Qed.

Lemma same_but_buttons_refl c : same_but_buttons c c.
Proof. repeat split. Qed.

Lemma resolve_total arr s :
  ∃ s',
    (let! b := addButtonIds arr in set_buttons b) s = (s', Returned tt) ∧
    preserved (heap s) (heap s') ∧
    same_but_buttons (this s) (this s') ∧
    console s' = console s ∧ classified s' = classified s ∧
    buttons (this s') = Some (length (arrs (heap s))) ∧
    positional_ids (heap s') (length (arrs (heap s))).
Proof.
  destruct s as [h c con cl]. cbn [heap this console classified].
  destruct (addButtonIds_total arr h c con cl)
    as (h' & Hrun & Hpre & Hobjs & Harrs & Hout & Hid).
  exists (mkState h'
            (mkComponent (image c) (buttonsConfig c) (emitters c)
               (Some (length (arrs h)))
               (defaultSize c) (defaultButtonsDefault c) (simpleButtonsDefault c)
               (advancedButtonsDefault c) (fullButtonsDefault c)) con cl).
  split; [unfold bind at 1; rewrite Hrun; reflexivity|].
  cbn [heap this console classified buttons].
  split; [exact Hpre|]. split; [repeat split|].
  split; [reflexivity|]. split; [reflexivity|]. split; [reflexivity|].
  intros i o Ho. rewrite Hout in Ho. apply lookup_seq in Ho as [-> Hi].
  by apply Hid.
Qed.

Lemma Array_forEach_state vals s :
  ∃ o, Array_forEach initCustomButtons_callback vals s = (s, o).
Proof.
  induction vals as [|val vals IH]; [by eexists|].
  cbn [Array_forEach]. unfold bind. rewrite initCustomButtons_callback_run.
  destruct (whitelisted _); [exact IH|by eexists].
Qed.

(** [initCustomButtons], whatever it is given and however it ends, adds the
    copy of the configuration (and at most one array) to the store and
    changes nothing else. *)
Lemma run_bind_assoc {A B C} (m : M A) (k : A → M B) (K : B → M C) s :
  (let! x := (let! y := m in k y) in K x) s =
  (let! y := m in let! x := k y in K x) s.
Proof. unfold bind. by destruct (m s) as [s' [a|e]]. Qed.

Lemma initCustomButtons_frame s :
  ∃ s' o,
    initCustomButtons s = (s', o) ∧
    preserved (heap s) (heap s') ∧
    this s' = this s ∧ console s' = console s ∧ classified s' = classified s.
Proof.
  destruct s as [h c con cl]. unfold initCustomButtons.
  rewrite run_gets, run_Object_assign_empty, run_gets. cbn [heap this console classified].
  set (copy := match buttonsConfig c with
               | Some l => read_object h l
               | None => ∅
               end).
  unfold read_prop. rewrite read_object_new.
  assert (Hpre : ∀ o as', preserved h (mkHeap (objs h ++ [o]) (arrs h ++ as'))).
  { intros o as'. split; cbn [objs arrs]; by apply prefix_app_r. }
  assert (Hpre' : ∀ o, preserved h (mkHeap (objs h ++ [o]) (arrs h))).
  { intros o. split; cbn [objs arrs]; [by apply prefix_app_r|reflexivity]. }
  destruct (truthy (default VUndef (copy !! "buttons"))) eqn:Ht.
  - rewrite run_ret, run_write_prop, heap_write_new.
    destruct (default VUndef (copy !! "buttons")) as [| | | | |a];
      try (eexists _, _; split; [reflexivity|];
           cbn [heap this console classified]; repeat split; apply Hpre').
    rewrite run_gets. unfold bind.
    destruct (Array_forEach_state
                (read_array (heap (mkState (mkHeap (objs h ++ [<["buttons" := VArr a]> copy])
                                             (arrs h)) c con cl)) a)
                (mkState (mkHeap (objs h ++ [<["buttons" := VArr a]> copy]) (arrs h))
                   c con cl)) as [o Ho].
    rewrite Ho.
    destruct o; (eexists _, _; split; [reflexivity|]);
      cbn [heap this console classified]; repeat split; apply Hpre'.
  - rewrite run_bind_assoc, run_new_array. cbn [objs arrs].
    rewrite run_ret, run_write_prop, heap_write_new, run_gets. unfold bind.
    destruct (Array_forEach_state
                (read_array (heap (mkState
                                     (mkHeap (objs h ++ [<["buttons" := VArr (length (arrs h))]> copy])
                                        (arrs h ++ [[]])) c con cl)) (length (arrs h)))
                (mkState (mkHeap (objs h ++ [<["buttons" := VArr (length (arrs h))]> copy])
                            (arrs h ++ [[]])) c con cl)) as [o Ho].
    rewrite Ho.
    destruct o; (eexists _, _; split; [reflexivity|]);
      cbn [heap this console classified]; repeat split; apply Hpre.
Qed.

Lemma ngOnInit_frame_run s :
  ∃ s' o,
    ngOnInit s = (s', o) ∧
    preserved (heap s) (heap s') ∧
    same_but_buttons (this s) (this s') ∧
    console s' = console s ∧ classified s' = classified s ∧
    (∀ e, o = Thrown e → buttons (this s') = buttons (this s)) ∧
    (o = Returned tt →
     ∃ b, buttons (this s') = Some b ∧
          (length (arrs (heap s)) ≤ b)%nat ∧
          positional_ids (heap s') b).
Proof.
  assert (Hthrow : ∀ e,
            ∃ s' o, (s, @Thrown unit e) = (s', o) ∧
              preserved (heap s) (heap s') ∧ same_but_buttons (this s) (this s') ∧
              console s' = console s ∧ classified s' = classified s ∧
              (∀ e', o = Thrown e' → buttons (this s') = buttons (this s)) ∧
              (o = Returned tt →
               ∃ b, buttons (this s') = Some b ∧ (length (arrs (heap s)) ≤ b)%nat ∧
                    positional_ids (heap s') b)).
  { intros e. eexists _, _. split; [reflexivity|].
    split; [apply preserved_refl|]. split; [apply same_but_buttons_refl|].
    split; [reflexivity|]. split; [reflexivity|]. split; [reflexivity|discriminate]. }
  assert (Hdef : ∀ arr,
            ∃ s' o, (let! b := addButtonIds arr in set_buttons b) s = (s', o) ∧
              preserved (heap s) (heap s') ∧ same_but_buttons (this s) (this s') ∧
              console s' = console s ∧ classified s' = classified s ∧
              (∀ e', o = Thrown e' → buttons (this s') = buttons (this s)) ∧
              (o = Returned tt →
               ∃ b, buttons (this s') = Some b ∧ (length (arrs (heap s)) ≤ b)%nat ∧
                    positional_ids (heap s') b)).
  { intros arr.
    destruct (resolve_total arr s) as (s' & Hrun & Hpre & Hsame & Hcon & Hcl & Hb & Hid).
    eexists _, _. split; [exact Hrun|].
    split; [exact Hpre|]. split; [exact Hsame|]. split; [exact Hcon|].
    split; [exact Hcl|]. split; [discriminate|].
    intros _. exists (length (arrs (heap s))). split; [exact Hb|]. split; [lia|exact Hid]. }
  unfold ngOnInit. rewrite !run_gets.
  destruct (buttonsConfig (this s)) as [cfg|]; [|apply Hthrow].
  destruct (truthy (read_prop (heap s) cfg "strategy")); cbn [negb]; [|apply Hthrow].
  destruct (strict_eq _ _); [apply Hdef|].
  destruct (strict_eq _ _); [apply Hdef|].
  destruct (strict_eq _ _); [apply Hdef|].
  destruct (strict_eq _ _); [|apply Hdef].
  unfold bind at 1.
  destruct (initCustomButtons_frame s)
    as (s1 & o1 & Hrun1 & Hpre1 & Hthis1 & Hcon1 & Hcl1).
  rewrite Hrun1. destruct o1 as [a|e].
  - destruct (resolve_total a s1) as (s' & Hrun & Hpre & Hsame & Hcon & Hcl & Hb & Hid).
    eexists _, _. split; [exact Hrun|].
    split; [exact (preserved_trans _ _ _ Hpre1 Hpre)|].
    split; [rewrite Hthis1 in Hsame; exact Hsame|].
    split; [exact (eq_trans Hcon Hcon1)|]. split; [exact (eq_trans Hcl Hcl1)|].
    split; [discriminate|].
    intros _. exists (length (arrs (heap s1))). split; [exact Hb|].
    split; [|exact Hid].
    destruct Hpre1 as [_ Harr]. by apply prefix_length.
  - eexists _, _. split; [reflexivity|].
    split; [exact Hpre1|]. split; [rewrite Hthis1; apply same_but_buttons_refl|].
    split; [exact Hcon1|]. split; [exact Hcl1|].
    split; [intros _ _; by rewrite Hthis1|discriminate].
Qed.

(** X4.  What [ngOnInit] never does.  However it ends, [ngOnInit] changes no
    object and no array that was in the store (the configuration and the
    default buttons included), writes nothing to the console, hands nothing
    to [handleImageEvent], and leaves every field of the component but
    [this.buttons] as it was, the six emitters included.  When it throws,
    [this.buttons] is as before too; when it returns, [this.buttons] is an
    array that was not in the store before and whose buttons carry their
    positions as [id]. *)
Theorem ngOnInit_frame (s : State) :
  let s' := (ngOnInit s).1 in
  preserved (heap s) (heap s') ∧
  same_but_buttons (this s) (this s') ∧
  console s' = console s ∧ classified s' = classified s ∧
  (∀ e, (ngOnInit s).2 = Thrown e → buttons (this s') = buttons (this s)) ∧
  ((ngOnInit s).2 = Returned tt →
   ∃ b, buttons (this s') = Some b ∧
        (length (arrs (heap s)) ≤ b)%nat ∧
        positional_ids (heap s') b).
Proof.
  cbv zeta. destruct (ngOnInit_frame_run s) as (s' & o & Hrun & H).
  rewrite Hrun. exact H.
Qed.

(** X5.  A falsy strategy.  A [strategy] that is there but is the number 0,
    the empty string or [false] is refused exactly like a missing one:
    [ngOnInit] throws the error about the mandatory strategy and changes
    nothing. *)
Theorem ngOnInit_rejects_falsy_strategy (s : State) (cfg : loc) :
  buttonsConfig (this s) = Some cfg →
  read_prop (heap s) cfg "strategy" ∈ [VNum 0; VStr ""; VBool false] →
  ngOnInit s = (s, Thrown (Error "ButtonsConfig's strategy is a mandatory field")).
Proof.
  intros Hcfg Hin. apply (ngOnInit_falsy_strategy s cfg Hcfg).
  rewrite !elem_of_cons in Hin.
  destruct Hin as [->|[->|[->|Hin]]]; [reflexivity..|].
  exfalso. exact (not_elem_of_nil _ Hin).
Qed.

(** ** What [onEvent] leaves alone *)

Lemma output_present c ch : emitters c ch ≠ None → output c ch = Some ch.
Proof. unfold output. by destruct (emitters c ch). Qed.

Lemma output_missing c ch : emitters c ch = None → output c ch = None.
Proof. unfold output. by intros ->. Qed.

Lemma trigger_frame em ev b i d s :
  ∃ s' o,
    triggerOnMouseAndKeyboard em ev b i d s = (s', o) ∧
    heap s' = heap s ∧
    same_but_emitters (this s) (this s') ∧
    (no_emission s s' ∨ ∃ ch, emitted_once s s' ch (mkButtonEvent i b d)).
Proof.
  destruct em as [ch|].
  - rewrite trigger_present.
    destruct (handleImageEvent ev =? NEXT).
    + eexists _, _. split; [reflexivity|].
      cbn [heap this]. split; [reflexivity|]. split; [repeat split|].
      destruct (emitters (this s) ch) as [log|] eqn:Hlog.
      * right. exists ch. unfold emitted_once. cbn [this emitters]. split.
        -- exists log. split; [exact Hlog|]. rewrite fn_lookup_insert.
           by rewrite ?Hlog.
        -- intros ch' Hne. by rewrite fn_lookup_insert_ne.
      * left. intros ch'. cbn [this emitters].
        destruct (decide (ch = ch')) as [<-|Hne].
        -- rewrite fn_lookup_insert. by rewrite ?Hlog.
        -- by rewrite fn_lookup_insert_ne.
    + eexists _, _. split; [reflexivity|].
      cbn [heap this]. split; [reflexivity|]. split; [repeat split|].
      left. by intros ch'.
  - rewrite trigger_missing. eexists _, _. split; [reflexivity|].
    cbn [heap this]. split; [reflexivity|]. split; [repeat split|].
    left. by intros ch'.
Qed.

Lemma onEvent_frame_run b i event s :
  ∃ s' o,
    onEvent b i event s = (s', o) ∧
    heap s' = heap s ∧
    same_but_emitters (this s) (this s') ∧
    (no_emission s s' ∨ ∃ ch d, emitted_once s s' ch (mkButtonEvent i b d)).
Proof.
  assert (Hnone : ∀ o : Outcome unit,
            ∃ s' o', (s, o) = (s', o') ∧ heap s' = heap s ∧
              same_but_emitters (this s) (this s') ∧
              (no_emission s s' ∨
               ∃ ch d, emitted_once s s' ch (mkButtonEvent i b d))).
  { intros o. exists s, o. split; [reflexivity|]. split; [reflexivity|].
    split; [repeat split|]. left. by intros ch. }
  assert (Htrig : ∀ em ev d,
            ∃ s' o, triggerOnMouseAndKeyboard em ev b i d s = (s', o) ∧
              heap s' = heap s ∧ same_but_emitters (this s) (this s') ∧
              (no_emission s s' ∨
               ∃ ch d, emitted_once s s' ch (mkButtonEvent i b d))).
  { intros em ev d.
    destruct (trigger_frame em ev b i d s) as (s' & o & Hrun & Hh & Hsame & Hemit).
    exists s', o. split; [exact Hrun|]. split; [exact Hh|]. split; [exact Hsame|].
    destruct Hemit as [Hno|[ch Hone]]; [by left|]. right. by exists ch, d. }
  destruct event as [ev|]; [|apply Hnone].
  rewrite onEvent_switch. cbv zeta.
  destruct (strict_eq _ _); [apply Htrig|].
  destruct (strict_eq _ _); [apply Htrig|].
  destruct (strict_eq _ _).
  { destruct (usable_url (this s)); [apply Htrig|apply Hnone]. }
  destruct (strict_eq _ _); [apply Htrig|].
  destruct (strict_eq _ _); [apply Htrig|].
  destruct (strict_eq _ _); [apply Htrig|apply Hnone].
Qed.

(** X6.  What [onEvent] never does.  Whatever the button, the index, the
    event and the state, and however the call ends, [onEvent] leaves the
    store as it was and every field of the component but the emitters as it
    was, [this.buttons] included; and it emits at most once: either no
    emitter has emitted, or exactly one has emitted exactly one event, made
    of the index and the button of the call, after the events it had
    emitted before. *)
Theorem onEvent_frame (s : State) (b : loc) (i : Z) (event : option DomEvent) :
  let s' := (onEvent b i event s).1 in
  heap s' = heap s ∧
  same_but_emitters (this s) (this s') ∧
  (no_emission s s' ∨ ∃ ch d, emitted_once s s' ch (mkButtonEvent i b d)).
Proof.
  cbv zeta. destruct (onEvent_frame_run b i event s) as (s' & o & Hrun & H).
  rewrite Hrun. exact H.
Qed.

(** X7.  The only failure of [onEvent].  On a component whose six emitters
    are there, [onEvent] writes nothing to the console and either returns
    or throws the error about the unknown type, the latter only for an
    event that is there and a button whose type is none of the six members,
    the state then being as before. *)
Theorem onEvent_fails_only_on_unknown_type (s : State) (b : loc) (i : Z)
    (event : option DomEvent) :
  (∀ ch, emitters (this s) ch ≠ None) →
  ∃ s' o,
    onEvent b i event s = (s', o) ∧
    console s' = console s ∧
    (o = Returned tt ∨
     o = Thrown (Error "Unknown button's type into ButtonConfig") ∧
     s' = s ∧ event ≠ None ∧
     read_prop (heap s) b "type" ∉ VNum <$> ButtonType.members BT).
Proof.
  intros Hem.
  assert (Htrig : ∀ ch ev d,
            ∃ s' o,
              triggerOnMouseAndKeyboard (output (this s) ch) ev b i d s = (s', o) ∧
              console s' = console s ∧
              (o = Returned tt ∨
               o = Thrown (Error "Unknown button's type into ButtonConfig") ∧
               s' = s ∧ Some ev ≠ None ∧
               read_prop (heap s) b "type" ∉ VNum <$> ButtonType.members BT)).
  { intros ch ev d. rewrite (output_present _ ch (Hem ch)), trigger_present.
    destruct (handleImageEvent ev =? NEXT);
      (eexists _, _; split; [reflexivity|]; split; [reflexivity|by left]). }
  destruct event as [ev|].
  2:{ exists s, (Returned tt). split; [reflexivity|]. split; [reflexivity|by left]. }
  rewrite onEvent_switch. cbv zeta.
  destruct (strict_eq _ _) eqn:H1; [apply Htrig|].
  destruct (strict_eq _ (VNum (ButtonType.DELETE BT))) eqn:H2; [apply Htrig|].
  destruct (strict_eq _ (VNum (ButtonType.EXTURL BT))) eqn:H3.
  { destruct (usable_url (this s)); [apply Htrig|].
    exists s, (Returned tt). split; [reflexivity|]. split; [reflexivity|by left]. }
  destruct (strict_eq _ (VNum (ButtonType.DOWNLOAD BT))) eqn:H4; [apply Htrig|].
  destruct (strict_eq _ (VNum (ButtonType.CLOSE BT))) eqn:H5; [apply Htrig|].
  destruct (strict_eq _ (VNum (ButtonType.CUSTOM BT))) eqn:H6; [apply Htrig|].
  exists s, (Thrown (Error "Unknown button's type into ButtonConfig")).
  split; [reflexivity|]. split; [reflexivity|]. right.
  split; [reflexivity|]. split; [reflexivity|]. split; [discriminate|].
  unfold strict_eq in *.
  apply bool_decide_eq_false_1 in H1, H2, H3, H4, H5, H6.
  unfold ButtonType.members. cbn [fmap list_fmap].
  rewrite !not_elem_of_cons. repeat split; try assumption. apply not_elem_of_nil.
Qed.

(** X8.  A missing emitter.  For a button of type REFRESH, DELETE, DOWNLOAD,
    CLOSE or CUSTOM whose emitter is missing, [onEvent] writes exactly one
    diagnostic line to the console, emits nothing and changes neither the
    component nor the store; it returns when the event is not classified
    as [NEXT], and throws a [TypeError] when it is. *)
Theorem onEvent_without_emitter (s : State) (b : loc) (i : Z) (ev : DomEvent)
    (t : Z) (ch : Channel.t) :
  NoDup (ButtonType.members BT) →
  (t, ch) ∈ [(ButtonType.REFRESH BT, Channel.refresh);
             (ButtonType.DELETE BT, Channel.delete);
             (ButtonType.DOWNLOAD BT, Channel.download);
             (ButtonType.CLOSE BT, Channel.close);
             (ButtonType.CUSTOM BT, Channel.customEmit)] →
  read_prop (heap s) b "type" = VNum t →
  emitters (this s) ch = None →
  let r := onEvent b i (Some ev) s in
  console r.1 =
    console s ++ ["UpperButtonsComponent unknown emitter in triggerOnMouseAndKeyboard"] ∧
  this r.1 = this s ∧ heap r.1 = heap s ∧
  (handleImageEvent ev ≠ NEXT → r.2 = Returned tt) ∧
  (handleImageEvent ev = NEXT →
   r.2 = Thrown (TypeError "Cannot read property 'emit' of undefined")).
Proof.
  intros Hnd Hin Hty Hno. cbv zeta.
  rewrite (onEvent_routes b i ev s t ch Hnd Hin Hty).
  rewrite (output_missing _ ch Hno), trigger_missing. cbn [fst snd console this heap].
  split; [reflexivity|]. split; [reflexivity|]. split; [reflexivity|]. split.
  - intros Hne. apply Z.eqb_neq in Hne. by rewrite Hne.
  - intros Heq. apply Z.eqb_eq in Heq. by rewrite Heq.
Qed.

(** ** Custom buttons through [ngOnInit] *)

Lemma resolve_keeps_input arr s :
  read_array (heap ((let! b := addButtonIds arr in set_buttons b) s).1) arr =
  read_array (heap s) arr.
Proof.
  destruct s as [h c con cl].
  destruct (addButtonIds_total arr h c con cl)
    as (h' & Hrun & Hpre & Hobjs & Harrs & Hout & Hid).
  unfold bind at 1. rewrite Hrun. cbn [heap fst set_buttons bind gets set_this].
  unfold read_array. destruct (arrs h !! arr) as [vs|] eqn:Ha.
  - by rewrite (prefix_lookup_Some _ _ _ _ Ha (proj2 Hpre)).
  - apply lookup_ge_None_1 in Ha.
    destruct (decide (arr = length (arrs h))) as [->|Hne].
    + fold (read_array h' (length (arrs h))). rewrite Hout.
      unfold read_array. by rewrite (lookup_ge_None_2 (arrs h)).
    + rewrite (lookup_ge_None_2 (arrs h')); [done|lia].
Qed.

Lemma whitelisted_zero : whitelisted (VNum 0) = false.
Proof.
  unfold whitelisted.
  destruct (Array_find _ _) as [u|] eqn:Hf; [|reflexivity].
  apply Array_find_Some in Hf as [Hu _].
  unfold strict_eq in Hu. by apply bool_decide_eq_true_1 in Hu as [= ->].
Qed.

Lemma initCustomButtons_accepts h c con cl cfg a :
  buttonsConfig c = Some cfg →
  read_prop h cfg "buttons" = VArr a →
  Forall (fun val => allocated h val ∧
                     whitelisted (read_prop h val "type") = true) (read_array h a) →
  initCustomButtons (mkState h c con cl) =
  (mkState (mkHeap (objs h ++ [<["buttons" := VArr a]> (read_object h cfg)]) (arrs h))
     c con cl,
   Returned a).
Proof.
  intros Hcfg Hg Hall.
  rewrite (initCustomButtons_run h c con cl cfg Hcfg). cbv zeta.
  rewrite Hg. cbn [truthy]. rewrite heap_write_new.
  unfold bind. rewrite Array_forEach_valid; [reflexivity|].
  cbn [heap]. apply Forall_forall. intros val Hval.
  change (In val (read_array h a)) in Hval.
  apply (proj1 (Forall_forall _ _) Hall) in Hval as [Hal Hw].
  rewrite (read_prop_preserved h); [exact Hw| |exact Hal].
  cbn [objs]. by apply prefix_app_r.
Qed.

Lemma initCustomButtons_rejects h c con cl cfg a val :
  buttonsConfig c = Some cfg →
  read_prop h cfg "buttons" = VArr a →
  val ∈ read_array h a → allocated h val →
  whitelisted (read_prop h val "type") = false →
  initCustomButtons (mkState h c con cl) =
  (mkState (mkHeap (objs h ++ [<["buttons" := VArr a]> (read_object h cfg)]) (arrs h))
     c con cl,
   Thrown (Error "Unknown ButtonType. For custom types use ButtonType.CUSTOM")).
Proof.
  intros Hcfg Hg Hval Hal Hw.
  rewrite (initCustomButtons_run h c con cl cfg Hcfg). cbv zeta.
  rewrite Hg. cbn [truthy]. rewrite heap_write_new.
  unfold bind. rewrite Array_forEach_invalid; [reflexivity|].
  cbn [heap]. apply Exists_exists. exists val.
  split; [apply list_elem_of_In; exact Hval|].
  rewrite (read_prop_preserved h); [exact Hw| |exact Hal].
  cbn [objs]. by apply prefix_app_r.
Qed.

Lemma initCustomButtons_absent h c con cl cfg :
  buttonsConfig c = Some cfg →
  truthy (read_prop h cfg "buttons") = false →
  initCustomButtons (mkState h c con cl) =
  (mkState (mkHeap (objs h ++ [<["buttons" := VArr (length (arrs h))]> (read_object h cfg)])
              (arrs h ++ [[]])) c con cl,
   Returned (length (arrs h))).
Proof.
  intros Hcfg Hg.
  rewrite (initCustomButtons_run h c con cl cfg Hcfg). cbv zeta.
  rewrite Hg, heap_write_new, read_array_new. reflexivity.
Qed.

(** X9.  The type 0.  A custom button whose [type] is the number 0 is always
    refused by [initCustomButtons], with the error about the unknown type
    and the component untouched, even when a member of the whitelist is the
    number 0: the result of [find] is tested with [!]. *)
Theorem initCustomButtons_rejects_zero (s : State) (cfg a val : loc) :
  buttonsConfig (this s) = Some cfg →
  read_prop (heap s) cfg "buttons" = VArr a →
  val ∈ read_array (heap s) a → allocated (heap s) val →
  read_prop (heap s) val "type" = VNum 0 →
  ∃ s', initCustomButtons s =
          (s', Thrown (Error "Unknown ButtonType. For custom types use ButtonType.CUSTOM")) ∧
        this s' = this s ∧ preserved (heap s) (heap s').
Proof.
  destruct s as [h c con cl]. cbn [heap this]. intros Hcfg Hg Hval Hal Hty.
  eexists. split.
  - apply (initCustomButtons_rejects h c con cl cfg a val Hcfg Hg Hval Hal).
    rewrite Hty. apply whitelisted_zero.
  - cbn [this heap]. split; [reflexivity|].
    split; cbn [objs arrs]; [by apply prefix_app_r|reflexivity].
Qed.

(** X10.  [ngOnInit] with the strategy CUSTOM.  When every supplied button has
    a type of the whitelist, [ngOnInit] returns and [this.buttons] is a new
    array, not the supplied one, whose buttons have the types of the
    supplied buttons, in their order, and carry their positions as [id];
    the supplied array and its buttons are as they were.  When the
    configuration has no [buttons], [this.buttons] is a new empty array and
    the configuration object still has no [buttons]. *)
Theorem ngOnInit_custom_buttons (s : State) (cfg : loc) :
  NoDup (ButtonsStrategy.members BS) →
  ButtonsStrategy.CUSTOM BS ≠ 0 →
  buttonsConfig (this s) = Some cfg →
  read_prop (heap s) cfg "strategy" = VNum (ButtonsStrategy.CUSTOM BS) →
  (∀ a,
     read_prop (heap s) cfg "buttons" = VArr a →
     0 ∉ WHITELIST_BUTTON_TYPES →
     (∀ val, val ∈ read_array (heap s) a →
             ∃ t, t ∈ WHITELIST_BUTTON_TYPES ∧
                  read_prop (heap s) val "type" = VNum t) →
     ∃ s' b,
       ngOnInit s = (s', Returned tt) ∧
       buttons (this s') = Some b ∧
       (length (arrs (heap s)) ≤ b)%nat ∧
       button_types (heap s') b = button_types (heap s) a ∧
       positional_ids (heap s') b ∧
       read_array (heap s') a = read_array (heap s) a ∧
       ∀ val, val ∈ read_array (heap s) a →
              read_object (heap s') val = read_object (heap s) val) ∧
  (read_prop (heap s) cfg "buttons" = VUndef →
   allocated (heap s) cfg →
   ∃ s' b,
     ngOnInit s = (s', Returned tt) ∧
     buttons (this s') = Some b ∧
     read_array (heap s') b = [] ∧
     read_prop (heap s') cfg "buttons" = VUndef).
Proof.
  intros Hnd Hnz Hcfg Hs.
  pose proof (ngOnInit_custom s cfg Hnd Hcfg Hs Hnz) as Hng.
  destruct s as [h c con cl]. cbn [heap this] in *. split.
  - intros a Hg Hwl Hall.
    assert (Hal : Forall (allocated h) (read_array h a)).
    { apply Forall_forall. intros val Hval. apply list_elem_of_In in Hval.
      destruct (Hall val Hval) as (t & _ & Hty).
      destruct (decide (val < length (objs h))%nat) as [|Hna]; [done|].
      by rewrite (read_prop_unallocated h val "type" Hna) in Hty. }
    assert (Hok : Forall (fun val => allocated h val ∧
                            whitelisted (read_prop h val "type") = true)
                    (read_array h a)).
    { apply Forall_forall. intros val Hval. apply list_elem_of_In in Hval.
      split; [exact (proj1 (Forall_forall _ _) Hal val (proj1 (list_elem_of_In _ _) Hval))|].
      destruct (Hall val Hval) as (t & Ht & ->).
      apply whitelisted_member; [exact Ht|]. by intros ->. }
    pose proof (initCustomButtons_accepts h c con cl cfg a Hcfg Hg Hok) as Hinit.
    set (h1 := mkHeap (objs h ++ [<["buttons" := VArr a]> (read_object h cfg)]) (arrs h))
      in *.
    assert (Hpre1 : preserved h h1).
    { split; cbn [objs arrs h1]; [by apply prefix_app_r|reflexivity]. }
    assert (Harr1 : read_array h1 a = read_array h a) by reflexivity.
    assert (Hal1 : elements_allocated h1 a).
    { unfold elements_allocated. rewrite Harr1.
      eapply Forall_impl; [|exact Hal]. intros l Hl.
      unfold allocated in *. cbn [h1 objs]. rewrite length_app. lia. }
    destruct (resolve_run a (mkState h1 c con cl) Hal1)
      as (s' & b & Hrun & Hb & Hty & Hpre & _).
    destruct (resolve_total a (mkState h1 c con cl))
      as (s'' & Hrun' & _ & _ & _ & _ & Hb' & Hid).
    rewrite Hrun in Hrun'. injection Hrun' as <-.
    cbn [heap] in *.
    exists s', b. split.
    { rewrite Hng. unfold bind at 1. rewrite Hinit. exact Hrun. }
    split; [exact Hb|].
    assert (Hbeq : b = length (arrs h)).
    { rewrite Hb in Hb'. by injection Hb'. }
    split; [lia|]. split.
    { rewrite Hty. unfold button_types. rewrite Harr1.
      apply list_fmap_ext. intros i val Hval.
      apply read_prop_preserved; [apply Hpre1|].
      apply (proj1 (Forall_forall _ _) Hal), list_elem_of_In.
      by eapply list_elem_of_lookup_2. }
    split; [by rewrite Hbeq|].
    split.
    { pose proof (resolve_keeps_input a (mkState h1 c con cl)) as Hkeep.
      rewrite Hrun in Hkeep. exact Hkeep. }
    intros val Hval.
    apply read_object_preserved; [exact (proj1 (preserved_trans _ _ _ Hpre1 Hpre))|].
    apply (proj1 (Forall_forall _ _) Hal), list_elem_of_In, Hval.
  - intros Hg Hcfgal.
    assert (Hf : truthy (read_prop h cfg "buttons") = false) by (by rewrite Hg).
    pose proof (initCustomButtons_absent h c con cl cfg Hcfg Hf) as Hinit.
    set (h1 := mkHeap _ _) in Hinit.
    assert (Hpre1 : preserved h h1).
    { split; cbn [objs arrs h1]; by apply prefix_app_r. }
    assert (Hempty : read_array h1 (length (arrs h)) = []) by apply read_array_new.
    assert (Hal1 : elements_allocated h1 (length (arrs h))).
    { unfold elements_allocated. rewrite Hempty. apply Forall_nil_2. }
    destruct (resolve_run (length (arrs h)) (mkState h1 c con cl) Hal1)
      as (s' & b & Hrun & Hb & Hty & Hpre & _).
    cbn [heap] in *.
    exists s', b. split.
    { rewrite Hng. unfold bind at 1. rewrite Hinit. exact Hrun. }
    split; [exact Hb|]. split.
    { unfold button_types in Hty. rewrite Hempty in Hty.
      by apply fmap_nil_inv in Hty. }
    rewrite (read_prop_preserved h (heap s') cfg "buttons"); [exact Hg| |exact Hcfgal].
    exact (proj1 (preserved_trans _ _ _ Hpre1 Hpre)).
Qed.

(** ** The shared defaults *)

Lemma button_literal_id cn sz t ti al : button_literal cn sz t ti al !! "id" = None.
Proof. unfold button_literal. by simplify_map_eq. Qed.

(** The run of the constructor once more, with what the statements below
    need: the buttons it creates have no [id]. *)
Lemma constructor_run_ids img cfg h c con cl :
  let n := length (objs h) in
  let m := length (arrs h) in
  ∃ sz ocl odl oex orf ode,
    constructor img cfg (mkState h c con cl) =
      (mkState
         (mkHeap (objs h ++ [sz; ocl; odl; oex; orf; ode])
            (arrs h ++ [[n + 1]; [n + 2; n + 1]; [n + 3; n + 2; n + 1];
                        [n + 4; n + 5; n + 3; n + 2; n + 1]]%nat))
         (mkComponent img cfg (fun _ => Some []) None
            n m (m + 1)%nat (m + 2)%nat (m + 3)%nat)
         con cl,
       Returned tt) ∧
    Forall (fun o : gmap string Value => o !! "id" = None) [ocl; odl; oex; orf; ode].
Proof.
  intros n m. unfold constructor.
  repeat (first [rewrite run_new_object | rewrite run_new_array | rewrite run_gets];
          cbv beta; cbn [heap objs arrs]).
  rewrite !read_array_new.
  rewrite !length_app. cbn [length].
  rewrite <- !app_assoc. cbn [app].
  rewrite <- !Nat.add_assoc. cbn [Nat.add]. fold n m.
  do 6 eexists. split; [reflexivity|].
  repeat apply Forall_cons_2; try apply Forall_nil_2; apply button_literal_id.
Qed.

(** X11.  The default arrays share their buttons.  The constructor cannot
    fail; it creates one size object and five button objects, all new and
    pairwise different, and four arrays that hold the very same button
    objects: the CLOSE button of the default array is the last element of
    the three other arrays, and so on.  It changes no earlier object or
    array, creates the six emitters with nothing emitted, and leaves
    [this.buttons] unset. *)
Theorem constructor_shares_buttons (img : option Image) (cfg : option loc)
    (s : State) :
  ∃ s' cl dl ex rf de,
    constructor img cfg s = (s', Returned tt) ∧
    read_array (heap s') (defaultButtonsDefault (this s')) = [cl] ∧
    read_array (heap s') (simpleButtonsDefault (this s')) = [dl; cl] ∧
    read_array (heap s') (advancedButtonsDefault (this s')) = [ex; dl; cl] ∧
    read_array (heap s') (fullButtonsDefault (this s')) = [rf; de; ex; dl; cl] ∧
    NoDup [defaultSize (this s'); cl; dl; ex; rf; de] ∧
    Forall (fun l => ¬ allocated (heap s) l ∧ allocated (heap s') l)
      [defaultSize (this s'); cl; dl; ex; rf; de] ∧
    preserved (heap s) (heap s') ∧
    (∀ ch, emitters (this s') ch = Some []) ∧
    buttons (this s') = None ∧
    image (this s') = img ∧ buttonsConfig (this s') = cfg ∧
    console s' = console s ∧ classified s' = classified s.
Proof.
  destruct s as [h c con cl0].
  destruct (constructor_run_ids img cfg h c con cl0)
    as (sz & ocl & odl & oex & orf & ode & Hrun & _).
  cbv zeta in Hrun.
  set (n := length (objs h)) in *. set (m := length (arrs h)) in *.
  eexists _, (n + 1)%nat, (n + 2)%nat, (n + 3)%nat, (n + 4)%nat, (n + 5)%nat.
  split; [exact Hrun|].
  cbn [heap this console classified defaultSize defaultButtonsDefault
       simpleButtonsDefault advancedButtonsDefault fullButtonsDefault
       emitters buttons image buttonsConfig].
  split; [replace m with (m + 0)%nat at 1 by lia; by apply read_array_nth|].
  split; [by apply read_array_nth|].
  split; [by apply read_array_nth|].
  split; [by apply read_array_nth|].
  split.
  { apply NoDup_ListNoDup, NoDup_nth with (d := 0%nat). cbn [length].
    intros i j Hi Hj.
    do 6 (destruct i as [|i]; [do 6 (destruct j as [|j]; [cbn; lia|]); cbn in Hj; lia|]).
    cbn in Hi. lia. }
  split.
  { repeat apply Forall_cons_2; try apply Forall_nil_2;
      (split; unfold allocated; cbn [objs]; fold n; [lia|rewrite length_app; cbn [length]; fold n; lia]). }
  split; [split; cbn [objs arrs]; by apply prefix_app_r|].
  repeat split.
Qed.

(** X12.  The defaults are never stamped.  After the constructor and
    [ngOnInit], whatever the configuration and however [ngOnInit] ends, the
    five default button objects are exactly as the constructor made them;
    in particular they have no [id] and [trackById] gives [undefined] for
    them: the ids live on the copies only. *)
Theorem defaults_never_stamped (img : option Image) (cfg : option loc)
    (s0 : State) (l : loc) (k : Z) :
  let s1 := (constructor img cfg s0).1 in
  let s2 := (ngOnInit s1).1 in
  l ∈ read_array (heap s1) (fullButtonsDefault (this s1)) →
  read_object (heap s2) l = read_object (heap s1) l ∧
  trackById k l s2 = (s2, Returned VUndef).
Proof.
  cbv zeta. destruct s0 as [h c con cl0].
  destruct (constructor_run_ids img cfg h c con cl0)
    as (sz & ocl & odl & oex & orf & ode & Hrun & Hids).
  cbv zeta in Hrun. rewrite Hrun. cbn [fst].
  set (n := length (objs h)) in *. set (m := length (arrs h)) in *.
  set (h1 := mkHeap _ _). set (c1 := mkComponent _ _ _ _ _ _ _ _ _).
  cbn [heap this]. unfold c1 at 1. cbn [fullButtonsDefault].
  assert (Hful : read_array h1 (m + 3) = [n + 4; n + 5; n + 3; n + 2; n + 1]%nat)
    by (by apply read_array_nth).
  rewrite Hful. clear Hful. intros Hl.
  assert (Hobj : ∀ j o, [sz; ocl; odl; oex; orf; ode] !! j = Some o →
                        read_object h1 (n + j) = o)
    by (intros j o Hj; by apply read_object_nth).
  assert (Hl1 : allocated h1 l ∧ read_object h1 l !! "id" = None).
  { rewrite !elem_of_cons in Hl.
    inversion Hids as [|? ? Hcl Hids1]; subst.
    inversion Hids1 as [|? ? Hdl Hids2]; subst.
    inversion Hids2 as [|? ? Hex Hids3]; subst.
    inversion Hids3 as [|? ? Hrf Hids4]; subst.
    inversion Hids4 as [|? ? Hde _]; subst.
    assert (Hlen : length (objs h1) = (n + 6)%nat).
    { unfold h1. cbn [objs]. rewrite length_app. reflexivity. }
    unfold allocated. rewrite Hlen.
    destruct Hl as [->|[->|[->|[->|[->|Hl]]]]];
      [..|exfalso; exact (not_elem_of_nil _ Hl)].
    - split; [lia|]. by rewrite (Hobj 4%nat orf).
    - split; [lia|]. by rewrite (Hobj 5%nat ode).
    - split; [lia|]. by rewrite (Hobj 3%nat oex).
    - split; [lia|]. by rewrite (Hobj 2%nat odl).
    - split; [lia|]. by rewrite (Hobj 1%nat ocl). }
  destruct Hl1 as [Hal Hid].
  destruct (ngOnInit_frame_run (mkState h1 c1 con cl0))
    as (s2 & o & Hng & Hpre & _).
  rewrite Hng. cbn [fst]. cbn [heap] in Hpre.
  assert (Hsame : read_object (heap s2) l = read_object h1 l)
    by (apply read_object_preserved; [apply Hpre|exact Hal]).
  split; [exact Hsame|].
  unfold trackById. rewrite run_gets. unfold ret, read_prop.
  by rewrite Hsame, Hid.
Qed.

(** ** From the strategy to the emitters *)

(** X13.  The resolved default buttons are routed.  For a component as the
    constructor builds it and a strategy that is present and is not CUSTOM,
    [ngOnInit] returns, and every button of [this.buttons] has one of the
    types REFRESH, DELETE, EXTURL, DOWNLOAD and CLOSE; an event classified
    as [NEXT] on the button at position i, when its type is not EXTURL,
    makes [onEvent] return with exactly one event emitted, the first ever,
    on the emitter of that type, made of i, that button and [true], every
    other emitter having emitted nothing.  The members of the button type
    enumeration are assumed to be distinct numbers. *)
Theorem default_buttons_are_routed (img : option Image) (cfg : loc)
    (s0 : State) (ev : DomEvent) :
  NoDup (ButtonType.members BT) →
  let s1 := (constructor img (Some cfg) s0).1 in
  let strategy := read_prop (heap s1) cfg "strategy" in
  truthy strategy = true →
  strategy ≠ VNum (ButtonsStrategy.CUSTOM BS) →
  handleImageEvent ev = NEXT →
  ∃ s2 b,
    ngOnInit s1 = (s2, Returned tt) ∧
    buttons (this s2) = Some b ∧
    ∀ i o,
      read_array (heap s2) b !! i = Some o →
      ∃ t,
        read_prop (heap s2) o "type" = VNum t ∧
        t ∈ [ButtonType.REFRESH BT; ButtonType.DELETE BT; ButtonType.EXTURL BT;
             ButtonType.DOWNLOAD BT; ButtonType.CLOSE BT] ∧
        ∀ ch,
          (t, ch) ∈ [(ButtonType.REFRESH BT, Channel.refresh);
                     (ButtonType.DELETE BT, Channel.delete);
                     (ButtonType.DOWNLOAD BT, Channel.download);
                     (ButtonType.CLOSE BT, Channel.close);
                     (ButtonType.CUSTOM BT, Channel.customEmit)] →
          ∃ s3,
            onEvent o (Z.of_nat i) (Some ev) s2 = (s3, Returned tt) ∧
            emitters (this s3) ch = Some [mkButtonEvent (Z.of_nat i) o (VBool true)] ∧
            ∀ ch', ch' ≠ ch → emitters (this s3) ch' = Some [].
Proof.
  intros Hnd.
  destruct (constructor_constructed img (Some cfg) s0)
    as (s1 & Hrun & Hc & _ & _ & _ & Hcfg & _).
  rewrite Hrun. cbn [fst]. intros Htruthy Hncustom Hact.
  destruct (constructed_button_types s1 Hc)
    as ((Hda & Hdt) & (Hsa & Hst) & (Haa & Hat) & (Hfa & Hft)).
  pose proof (constructed_emitters _ _ Hc) as Hem.
  assert (Htail : ∀ arr types,
            elements_allocated (heap s1) arr →
            button_types (heap s1) arr = VNum <$> types →
            (∀ t, t ∈ types →
                  t ∈ [ButtonType.REFRESH BT; ButtonType.DELETE BT;
                       ButtonType.EXTURL BT; ButtonType.DOWNLOAD BT;
                       ButtonType.CLOSE BT]) →
            ∃ s2 b,
              (let! b := addButtonIds arr in set_buttons b) s1 = (s2, Returned tt) ∧
              buttons (this s2) = Some b ∧
              ∀ i o,
                read_array (heap s2) b !! i = Some o →
                ∃ t,
                  read_prop (heap s2) o "type" = VNum t ∧
                  t ∈ [ButtonType.REFRESH BT; ButtonType.DELETE BT;
                       ButtonType.EXTURL BT; ButtonType.DOWNLOAD BT;
                       ButtonType.CLOSE BT] ∧
                  ∀ ch,
                    (t, ch) ∈ [(ButtonType.REFRESH BT, Channel.refresh);
                               (ButtonType.DELETE BT, Channel.delete);
                               (ButtonType.DOWNLOAD BT, Channel.download);
                               (ButtonType.CLOSE BT, Channel.close);
                               (ButtonType.CUSTOM BT, Channel.customEmit)] →
                    ∃ s3,
                      onEvent o (Z.of_nat i) (Some ev) s2 = (s3, Returned tt) ∧
                      emitters (this s3) ch =
                        Some [mkButtonEvent (Z.of_nat i) o (VBool true)] ∧
                      ∀ ch', ch' ≠ ch → emitters (this s3) ch' = Some []).
  { intros arr types Hal Hty Hsub.
    destruct (resolve_run arr s1 Hal) as (s2 & b & Hr & Hb & Hbt & _ & Hems & _).
    exists s2, b. split; [exact Hr|]. split; [exact Hb|].
    intros i o Ho.
    assert (Hio : button_types (heap s2) b !! i = Some (read_prop (heap s2) o "type")).
    { unfold button_types. by rewrite list_lookup_fmap, Ho. }
    rewrite Hbt, Hty, list_lookup_fmap in Hio.
    destruct (types !! i) as [t|] eqn:Hti; [|discriminate].
    injection Hio as Hio. exists t. split; [by symmetry|].
    split; [apply Hsub; by eapply list_elem_of_lookup_2|].
    intros ch Hch.
    rewrite (onEvent_routes o (Z.of_nat i) ev s2 t ch Hnd Hch (eq_sym Hio)).
    assert (Hem2 : ∀ ch0, emitters (this s2) ch0 = Some []).
    { intros ch0. rewrite Hems. apply Hem. }
    destruct (trigger_activation ch ev o (Z.of_nat i) (VBool true) s2 Hact)
      as (s3 & Hrun3 & ((log & Hlog & Hlog') & Hothers) & _).
    { rewrite Hem2. discriminate. }
    exists s3. split; [exact Hrun3|]. split.
    - rewrite Hem2 in Hlog. injection Hlog as <-. exact Hlog'.
    - intros ch' Hne. rewrite (Hothers ch' Hne). apply Hem2. }
  rewrite (ngOnInit_switch s1 cfg Hcfg Htruthy). cbv zeta.
  destruct (strict_eq _ (VNum (ButtonsStrategy.SIMPLE BS))).
  { apply (Htail _ _ Hsa Hst). intros t Ht. rewrite !elem_of_cons in *. tauto. }
  destruct (strict_eq _ (VNum (ButtonsStrategy.ADVANCED BS))).
  { apply (Htail _ _ Haa Hat). intros t Ht. rewrite !elem_of_cons in *. tauto. }
  destruct (strict_eq _ (VNum (ButtonsStrategy.FULL BS))).
  { apply (Htail _ _ Hfa Hft). intros t Ht. exact Ht. }
  destruct (strict_eq _ (VNum (ButtonsStrategy.CUSTOM BS))) eqn:Hcu.
  { unfold strict_eq in Hcu. apply bool_decide_eq_true_1 in Hcu. by destruct Hncustom. }
  apply (Htail _ _ Hda Hdt). intros t Ht. rewrite !elem_of_cons in *. tauto.
Qed.

End UpperButtons.

(** * The statements on examples *)

Lemma addButtonIds_assigns_positions_witness :
  let s := (constructor Sample.BT None None (Sample.config_only ∅)).1 in
  ∃ s' a',
    addButtonIds (fullButtonsDefault (this s)) s = (s', Returned a') ∧
    length (read_array (heap s') a') = 5%nat ∧
    (∀ i o, read_array (heap s') a' !! i = Some o →
            read_prop (heap s') o "id" = VNum (Z.of_nat i)).
Proof.
  cbv zeta.
  destruct (addButtonIds_assigns_positions
              (constructor Sample.BT None None (Sample.config_only ∅)).1 3%nat)
    as (s' & a' & Hrun & Hlen & Hid & _).
  - unfold elements_allocated. vm_compute read_array.
    repeat apply Forall_cons_2; try apply Forall_nil_2; unfold allocated; vm_compute; lia.
  - exists s', a'. split; [exact Hrun|]. split; [|exact Hid].
    etrans; [exact Hlen|]. reflexivity.
Defined.

Lemma addButtonIds_copy_is_shallow_witness :
  ∃ s' a' o,
    addButtonIds 0%nat Sample.sized_button = (s', Returned a') ∧
    read_array (heap s') a' !! 0%nat = Some o ∧ o ≠ 1%nat ∧
    ∃ s'', write_nested o "size" "height" (VNum 50) s' = (s'', Returned tt) ∧
           read_nested (heap Sample.sized_button) 1%nat "size" "height" = VNum 30 ∧
           read_nested (heap s'') 1%nat "size" "height" = VNum 50.
Proof.
  destruct (addButtonIds_copy_is_shallow Sample.BT Sample.sized_button 0%nat
              None None Sample.sized_button) as [Hcopy _].
  destruct Hcopy as (s' & a' & Hrun & _ & Hshare).
  - unfold elements_allocated. vm_compute read_array.
    repeat apply Forall_cons_2; try apply Forall_nil_2; unfold allocated; vm_compute; lia.
  - destruct (Hshare 0%nat 1%nat eq_refl) as (o & Ho & Hne & _ & Hnested & _).
    destruct (Hnested 0%nat "height" (VNum 50)) as (s'' & Hw & Hbefore & Hafter).
    + vm_compute. reflexivity.
    + unfold allocated. vm_compute. lia.
    + discriminate.
    + exists s', a', o. split; [exact Hrun|]. split; [exact Ho|]. split; [exact Hne|].
      exists s''. split; [exact Hw|]. split; [|exact Hafter].
      vm_compute. reflexivity.
Defined.

Lemma ngOnInit_fixed_lists_witness :
  resolves_to (ngOnInit Sample.BT Sample.BS)
    (constructor Sample.BT None (Some 0%nat)
       (Sample.config_only {["strategy" := VNum 4]})).1
    [1; 2; 3; 4; 5].
Proof.
  destruct (ngOnInit_fixed_lists Sample.BT Sample.BS None 0%nat
              (Sample.config_only {["strategy" := VNum 4]}))
    as (_ & _ & Hfull & _).
  - apply (bool_decide_unpack _). vm_compute. exact I.
  - vm_compute. reflexivity.
  - apply Hfull. vm_compute. reflexivity.
Defined.

Lemma ngOnInit_mandatory_strategy_witness :
  ngOnInit Sample.BT Sample.BS (Sample.config_only ∅) =
  (Sample.config_only ∅,
   Thrown (Error "ButtonsConfig's strategy is a mandatory field")).
Proof.
  exact (proj1 (ngOnInit_mandatory_strategy Sample.BT Sample.BS
                  (Sample.config_only ∅) (or_introl eq_refl))).
Defined.

Lemma initCustomButtons_validates_witness :
  let s := Sample.custom_state (VNum 5) (VNum 6) in
  ∃ s', initCustomButtons Sample.BT s = (s', Returned 0%nat) ∧
        read_array (heap s') 0%nat = [1; 2]%nat.
Proof.
  cbv zeta.
  destruct (initCustomButtons_validates Sample.BT Sample.BS
              (Sample.custom_state (VNum 5) (VNum 6)) 0%nat eq_refl)
    as (_ & Hall & _).
  destruct (Hall 0%nat) as (s' & Hrun & Harr & _).
  - vm_compute. reflexivity.
  - apply (bool_decide_unpack _). vm_compute. exact I.
  - intros val Hval. vm_compute read_array in Hval.
    apply elem_of_cons in Hval as [->|Hval].
    + exists 5. split; [|vm_compute; reflexivity].
      apply (bool_decide_unpack _). vm_compute. exact I.
    + apply elem_of_cons in Hval as [->|Hval].
      * exists 6. split; [|vm_compute; reflexivity].
        apply (bool_decide_unpack _). vm_compute. exact I.
      * by apply elem_of_nil in Hval.
  - exists s'. split; [exact Hrun|]. etrans; [exact Harr|]. vm_compute. reflexivity.
Defined.

Lemma onEvent_dispatch_witness :
  let s := Sample.one_button (VNum 5) None (fun _ => Some []) in
  ∃ s', onEvent Sample.BT Sample.NEXT Sample.handleImageEvent 0%nat 7
          (Some (MouseEvent 0)) s = (s', Returned tt) ∧
        emitted_once s s' Channel.close (mkButtonEvent 7 0%nat (VBool true)).
Proof.
  cbv zeta.
  destruct (onEvent_dispatch Sample.BT Sample.NEXT Sample.handleImageEvent
              (Sample.one_button (VNum 5) None (fun _ => Some [])) 0%nat 7
              (MouseEvent 0)) as (Htrue & _).
  - apply (bool_decide_unpack _). vm_compute. exact I.
  - reflexivity.
  - apply (Htrue 5 Channel.close).
    + apply (bool_decide_unpack _). vm_compute. exact I.
    + vm_compute. reflexivity.
    + discriminate.
Defined.

Lemma onEvent_exturl_gate_witness :
  let s := Sample.one_button (VNum 3)
             (Some (mkImage (Some "https://example.com/x"))) (fun _ => Some []) in
  ∃ s', onEvent Sample.BT Sample.NEXT Sample.handleImageEvent 0%nat 2
          (Some (KeyboardEvent 13)) s = (s', Returned tt) ∧
        emitted_once s s' Channel.navigate
          (mkButtonEvent 2 0%nat (VStr "https://example.com/x")).
Proof.
  cbv zeta.
  destruct (onEvent_exturl_gate Sample.BT Sample.NEXT Sample.handleImageEvent
              (Sample.one_button (VNum 3)
                 (Some (mkImage (Some "https://example.com/x"))) (fun _ => Some []))
              0%nat 2) as (_ & Hurl).
  - apply (bool_decide_unpack _). vm_compute. exact I.
  - vm_compute. reflexivity.
  - apply (Hurl (KeyboardEvent 13) (mkImage (Some "https://example.com/x"))).
    + reflexivity.
    + reflexivity.
    + discriminate.
    + reflexivity.
    + discriminate.
Defined.

Lemma onEvent_only_on_activation_witness :
  let s := Sample.one_button (VNum 5) None (fun _ => Some []) in
  no_emission s
    (onEvent Sample.BT Sample.NEXT Sample.handleImageEvent 0%nat 0
       (Some (KeyboardEvent 65)) s).1.
Proof.
  cbv zeta.
  destruct (onEvent_only_on_activation Sample.BT Sample.NEXT Sample.handleImageEvent
              (Sample.one_button (VNum 5) None (fun _ => Some [])) 0%nat 0
              (Some (KeyboardEvent 65))) as (_ & Hother & _).
  apply (Hother (KeyboardEvent 65)); [reflexivity|discriminate].
Defined.

Lemma onEvent_type_before_event_witness :
  let s := Sample.one_button (VNum 99) None (fun _ => Some []) in
  let r := onEvent Sample.BT Sample.NEXT Sample.handleImageEvent 0%nat 0
             (Some (KeyboardEvent 65)) s in
  r = (s, Thrown (Error "Unknown button's type into ButtonConfig")) ∧
  classified r.1 = [].
Proof.
  cbv zeta.
  destruct (onEvent_type_before_event Sample.BT Sample.NEXT Sample.handleImageEvent
              (Sample.one_button (VNum 99) None (fun _ => Some [])) 0%nat 0
              (KeyboardEvent 65)) as (Hunknown & _).
  - apply (bool_decide_unpack _). vm_compute. exact I.
  - apply Hunknown. apply (bool_decide_unpack _). vm_compute. exact I.
Defined.

(** C2, as the claim words it, fails on an EXTURL button when the component
    has no image: the six emitters are there, the event is classified as
    [NEXT], the button has a type of the enumeration, and yet [onEvent]
    returns without any emission on [navigate]. *)
Lemma onEvent_dispatch_counterexample :
  let s := Sample.one_button (VNum 3) None (fun _ => Some []) in
  read_prop (heap s) 0%nat "type" = VNum (ButtonType.EXTURL Sample.BT) ∧
  Sample.handleImageEvent (MouseEvent 0) = Sample.NEXT ∧
  (∀ ch, emitters (this s) ch ≠ None) ∧
  ¬ ∃ s' e,
      onEvent Sample.BT Sample.NEXT Sample.handleImageEvent 0%nat 0
        (Some (MouseEvent 0)) s = (s', Returned tt) ∧
      emitted_once s s' Channel.navigate e.
Proof.
  cbv zeta. split; [reflexivity|]. split; [reflexivity|]. split; [discriminate|].
  intros (s' & e & Hrun & (log & Hbefore & Hafter) & _).
  assert (Hsame : onEvent Sample.BT Sample.NEXT Sample.handleImageEvent 0%nat 0
                    (Some (MouseEvent 0))
                    (Sample.one_button (VNum 3) None (fun _ => Some [])) =
                  (Sample.one_button (VNum 3) None (fun _ => Some []), Returned tt))
    by reflexivity.
  rewrite Hsame in Hrun. injection Hrun as <-.
  rewrite Hbefore in Hafter. injection Hafter as Hlog.
  apply (f_equal length) in Hlog. rewrite length_app in Hlog. simpl in Hlog. lia.
Qed.

(** C4, on the source as it is.  With the [close] emitter missing, a click
    on a CLOSE button writes the diagnostic to the console and then fails:
    [emitter.emit] is reached on the missing emitter, and the [TypeError]
    leaves [onEvent]. *)
Theorem onEvent_missing_emitter_throws :
  let s := Sample.one_button (VNum 5) None
             (fun ch => if decide (ch = Channel.close) then None else Some []) in
  let r := onEvent Sample.BT Sample.NEXT Sample.handleImageEvent 0%nat 0
             (Some (MouseEvent 0)) s in
  r.2 = Thrown (TypeError "Cannot read property 'emit' of undefined") ∧
  console r.1 =
    ["UpperButtonsComponent unknown emitter in triggerOnMouseAndKeyboard"] ∧
  this r.1 = this s.
Proof. cbv zeta. repeat split; vm_compute; reflexivity. Qed.

Lemma addButtonIds_twice_witness :
  ∃ s1 a1 s2 a2,
    addButtonIds 0%nat Sample.sized_button = (s1, Returned a1) ∧
    addButtonIds a1 s1 = (s2, Returned a2) ∧
    length (read_array (heap s2) a2) = 1%nat.
Proof.
  destruct (addButtonIds_twice Sample.sized_button 0%nat)
    as (s1 & a1 & s2 & a2 & Hrun1 & Hrun2 & Hlen & _).
  - unfold elements_allocated. vm_compute read_array.
    repeat apply Forall_cons_2; try apply Forall_nil_2; unfold allocated; vm_compute; lia.
  - exists s1, a1, s2, a2. split; [exact Hrun1|]. split; [exact Hrun2|].
    etrans; [exact Hlen|]. vm_compute. reflexivity.
Defined.

Lemma ngOnInit_rejects_falsy_strategy_witness :
  let s := mkState (mkHeap [ {["strategy" := VNum 0]} ] [])
             (mkComponent None (Some 0%nat) (fun _ => Some []) None
                0%nat 0%nat 0%nat 0%nat 0%nat) [] [] in
  ngOnInit Sample.BT Sample.BS s =
  (s, Thrown (Error "ButtonsConfig's strategy is a mandatory field")).
Proof.
  cbv zeta. apply ngOnInit_rejects_falsy_strategy with (cfg := 0%nat).
  - reflexivity.
  - apply (bool_decide_unpack _). vm_compute. exact I.
Defined.

Lemma onEvent_fails_only_on_unknown_type_witness :
  let s := Sample.one_button (VNum 99) None (fun _ => Some []) in
  ∃ s' o,
    onEvent Sample.BT Sample.NEXT Sample.handleImageEvent 0%nat 0
      (Some (MouseEvent 0)) s = (s', o) ∧
    console s' = [].
Proof.
  cbv zeta.
  destruct (onEvent_fails_only_on_unknown_type Sample.BT Sample.NEXT
              Sample.handleImageEvent
              (Sample.one_button (VNum 99) None (fun _ => Some [])) 0%nat 0
              (Some (MouseEvent 0))) as (s' & o & Hrun & Hcon & _).
  - intros ch. discriminate.
  - exists s', o. split; [exact Hrun|exact Hcon].
Defined.

Lemma onEvent_without_emitter_witness :
  let s := Sample.one_button (VNum 5) None
             (fun ch => if decide (ch = Channel.close) then None else Some []) in
  let r := onEvent Sample.BT Sample.NEXT Sample.handleImageEvent 0%nat 0
             (Some (KeyboardEvent 65)) s in
  r.2 = Returned tt ∧
  console r.1 = ["UpperButtonsComponent unknown emitter in triggerOnMouseAndKeyboard"].
Proof.
  cbv zeta.
  destruct (onEvent_without_emitter Sample.BT Sample.NEXT Sample.handleImageEvent
              (Sample.one_button (VNum 5) None
                 (fun ch => if decide (ch = Channel.close) then None else Some []))
              0%nat 0 (KeyboardEvent 65) 5 Channel.close)
    as (Hcon & _ & _ & Hret & _).
  - apply (bool_decide_unpack _). vm_compute. exact I.
  - apply (bool_decide_unpack _). vm_compute. exact I.
  - vm_compute. reflexivity.
  - reflexivity.
  - split; [apply Hret; discriminate|exact Hcon].
Defined.

Lemma initCustomButtons_rejects_zero_witness :
  ButtonType.REFRESH Sample.BT0 = 0 ∧
  ∃ s', initCustomButtons Sample.BT0 (Sample.custom_state (VNum 0) (VNum 5)) =
          (s', Thrown (Error "Unknown ButtonType. For custom types use ButtonType.CUSTOM")).
Proof.
  split; [reflexivity|].
  destruct (initCustomButtons_rejects_zero Sample.BT0
              (Sample.custom_state (VNum 0) (VNum 5)) 0%nat 0%nat 1%nat)
    as (s' & Hrun & _).
  - reflexivity.
  - vm_compute. reflexivity.
  - apply (bool_decide_unpack _). vm_compute. exact I.
  - unfold allocated. vm_compute. lia.
  - vm_compute. reflexivity.
  - exists s'. exact Hrun.
Defined.

Lemma ngOnInit_custom_buttons_witness :
  let s := Sample.custom_state (VNum 5) (VNum 6) in
  ∃ s' b,
    ngOnInit Sample.BT Sample.BS s = (s', Returned tt) ∧
    buttons (this s') = Some b ∧
    button_types (heap s') b = [VNum 5; VNum 6].
Proof.
  cbv zeta.
  destruct (ngOnInit_custom_buttons Sample.BT Sample.BS
              (Sample.custom_state (VNum 5) (VNum 6)) 0%nat) as (Hall & _).
  - apply (bool_decide_unpack _). vm_compute. exact I.
  - discriminate.
  - reflexivity.
  - vm_compute. reflexivity.
  - destruct (Hall 0%nat) as (s' & b & Hrun & Hb & _ & Hty & _).
    + vm_compute. reflexivity.
    + apply (bool_decide_unpack _). vm_compute. exact I.
    + intros val Hval. vm_compute read_array in Hval.
      apply elem_of_cons in Hval as [->|Hval].
      * exists 5. split; [|vm_compute; reflexivity].
        apply (bool_decide_unpack _). vm_compute. exact I.
      * apply elem_of_cons in Hval as [->|Hval].
        -- exists 6. split; [|vm_compute; reflexivity].
           apply (bool_decide_unpack _). vm_compute. exact I.
        -- by apply elem_of_nil in Hval.
    + exists s', b. split; [exact Hrun|]. split; [exact Hb|].
      etrans; [exact Hty|]. vm_compute. reflexivity.
Defined.

Lemma defaults_never_stamped_witness :
  let s1 := (constructor Sample.BT None (Some 0%nat)
               (Sample.config_only {["strategy" := VNum 4]})).1 in
  let s2 := (ngOnInit Sample.BT Sample.BS s1).1 in
  trackById 0 5%nat s2 = (s2, Returned VUndef).
Proof.
  cbv zeta.
  apply (defaults_never_stamped Sample.BT Sample.BS None (Some 0%nat)
           (Sample.config_only {["strategy" := VNum 4]}) 5%nat 0).
  apply (bool_decide_unpack _). vm_compute. exact I.
Defined.

Lemma default_buttons_are_routed_witness :
  let s1 := (constructor Sample.BT None (Some 0%nat)
               (Sample.config_only {["strategy" := VNum 4]})).1 in
  ∃ s2 b,
    ngOnInit Sample.BT Sample.BS s1 = (s2, Returned tt) ∧
    buttons (this s2) = Some b.
Proof.
  cbv zeta.
  destruct (default_buttons_are_routed Sample.BT Sample.BS Sample.NEXT
              Sample.handleImageEvent None 0%nat
              (Sample.config_only {["strategy" := VNum 4]}) (MouseEvent 0))
    as (s2 & b & Hrun & Hb & _).
  - apply (bool_decide_unpack _). vm_compute. exact I.
  - vm_compute. reflexivity.
  - vm_compute. discriminate.
  - reflexivity.
  - exists s2, b. split; [exact Hrun|exact Hb].
Defined.
